(** * kres: detection and pipeline assembly for Go projects

    A shallow embedding of [internal/project/auto/golang.go]:
    [DetectGolang] probes the file layout under a root path and fills in
    the shared [meta.Options] descriptor; [BuildGolang] allocates the
    pipeline nodes of a Go project and wires their inputs. *)

From stdpp Require Import base list strings relations.

Open Scope string_scope.

(** ** Errors and the filesystem interface *)

(** Go's [error] values, as far as this package looks at them: the only
    inspection is [os.IsNotExist]. *)
Inductive error : Type :=
| ErrNotExist
| ErrPermission
| ErrOther (msg : string).

Definition os_IsNotExist (err : error) : bool :=
  match err with
  | ErrNotExist => true
  | _ => false
  end.

(** [os.FileInfo], restricted to the two methods the package calls. *)
Record FileInfo : Type := mkFileInfo {
  Name : string;
  IsDir : bool
}.

(** An opened [*os.File]; the only use made of it is [ioutil.ReadAll]. *)
Record File : Type := mkFile {
  ioutil_ReadAll : error + string
}.

(** Everything [golang.go] takes from outside the file: the operating
    system's view of the filesystem ([os.Open], [ioutil.ReadDir]), three
    library functions ([filepath.Join], [path.Join],
    [modfile.ModulePath]) and the package helper [directoryExists], whose
    body lives in another file of the package. A Go call returning
    [(v, err)] is a sum: [inl err] or [inr v]. *)
Record Env : Type := mkEnv {
  os_Open : string -> error + File;
  ioutil_ReadDir : string -> error + list FileInfo;
  directoryExists : string -> string -> error + bool;
  filepath_Join : string -> string -> string;
  path_Join : string -> string -> string;
  modfile_ModulePath : string -> string
}.

(** [strings.HasSuffix]:
    [len(s) >= len(suffix) && s[len(s)-len(suffix):] == suffix]. *)
Definition strings_HasSuffix (s suffix : string) : bool :=
  Nat.leb (String.length suffix) (String.length s) &&
  String.eqb
    (String.substring (String.length s - String.length suffix)
       (String.length suffix) s)
    suffix.

(** ** The project descriptor *)

(** The fields of [meta.Options] that the detector writes and the builder
    reads. *)
Record Options : Type := mkOptions {
  CanonicalPath : string;
  Directories : list string;
  GoDirectories : list string;
  SourceFiles : list string;
  GoSourceFiles : list string;
  VersionPackage : string;
  Commands : list string
}.

Definition emptyOptions : Options :=
  mkOptions "" [] [] [] [] "" [].

Definition setCanonicalPath (v : string) (o : Options) : Options :=
  mkOptions v (Directories o) (GoDirectories o) (SourceFiles o)
    (GoSourceFiles o) (VersionPackage o) (Commands o).

(** [options.Directories = append(options.Directories, d)] followed by the
    same append on [options.GoDirectories]. *)
Definition appendDirectory (d : string) (o : Options) : Options :=
  mkOptions (CanonicalPath o) (Directories o ++ [d]) (GoDirectories o ++ [d])
    (SourceFiles o) (GoSourceFiles o) (VersionPackage o) (Commands o).

(** The two appends of a root-level Go file name. *)
Definition appendGoSourceFile (f : string) (o : Options) : Options :=
  mkOptions (CanonicalPath o) (Directories o) (GoDirectories o)
    (SourceFiles o ++ [f]) (GoSourceFiles o ++ [f]) (VersionPackage o)
    (Commands o).

Definition appendSourceFiles (fs : list string) (o : Options) : Options :=
  mkOptions (CanonicalPath o) (Directories o) (GoDirectories o)
    (SourceFiles o ++ fs) (GoSourceFiles o) (VersionPackage o) (Commands o).

Definition setVersionPackage (v : string) (o : Options) : Options :=
  mkOptions (CanonicalPath o) (Directories o) (GoDirectories o)
    (SourceFiles o) (GoSourceFiles o) v (Commands o).

Definition appendCommand (c : string) (o : Options) : Options :=
  mkOptions (CanonicalPath o) (Directories o) (GoDirectories o)
    (SourceFiles o) (GoSourceFiles o) (VersionPackage o) (Commands o ++ [c]).

(** ** A monad for the detector

    [DetectGolang] mutates [*meta.Options] in place and leaves early with
    an error; the writes made before the error stay in the descriptor. *)
Definition Detect (A : Type) : Type := Options -> (error + A) * Options.

Definition dret {A} (a : A) : Detect A := fun o => (inr a, o).

Definition dbind {A B} (c : Detect A) (k : A -> Detect B) : Detect B :=
  fun o =>
    match c o with
    | (inl err, o') => (inl err, o')
    | (inr a, o') => k a o'
    end.

(** A fallible call that does not touch the descriptor. *)
Definition call {A} (r : error + A) : Detect A := fun o => (r, o).

Definition modify (f : Options -> Options) : Detect unit :=
  fun o => (inr tt, f o).

Definition gets {A} (f : Options -> A) : Detect A := fun o => (inr (f o), o).

Notation "'do' x <- c ; k" := (dbind c (fun x => k))
  (at level 10, x name, c at level 100, k at level 200).

(** [for _, x := range xs { body }]. *)
Fixpoint forRange {A} (xs : list A) (body : A -> Detect unit) : Detect unit :=
  match xs with
  | [] => dret tt
  | x :: rest => do _ <- body x; forRange rest body
  end.

Definition when (b : bool) (c : Detect unit) : Detect unit :=
  if b then c else dret tt.

(** ** The detector *)

Section Detection.
Context (E : Env).

Definition isGoFile (item : FileInfo) : bool :=
  negb (IsDir item) && strings_HasSuffix (Name item) ".go".

(** The loop of [hasGoFiles]: leaves with [true] at the first regular
    file whose name ends in ".go". *)
Fixpoint anyGoFile (contents : list FileInfo) : bool :=
  match contents with
  | [] => false
  | item :: rest => if isGoFile item then true else anyGoFile rest
  end.

Definition hasGoFiles (path : string) : error + bool :=
  match ioutil_ReadDir E path with
  | inl err => inl err
  | inr contents => inr (anyGoFile contents)
  end.

Definition sourceDirNames : list string := ["src"; "internal"; "pkg"; "cmd"].

Definition versionCandidates : list string :=
  ["pkg/version"; "internal/version"].

(** Lines 48-58. *)
Definition detectSourceDirs (rootPath : string) : Detect unit :=
  forRange sourceDirNames (fun srcDir =>
    do exists_ <- call (directoryExists E rootPath srcDir);
    when exists_ (modify (appendDirectory srcDir))).

(** Lines 60-82. *)
Definition detectFallbackDirs (rootPath : string) : Detect unit :=
  do n <- gets (fun o => length (GoDirectories o));
  when (Nat.eqb n 0)
    (do topLevel <- call (ioutil_ReadDir E rootPath);
     forRange topLevel (fun item =>
       if negb (IsDir item) then dret tt
       else
         do result <- call (hasGoFiles (filepath_Join E rootPath (Name item)));
         when result (modify (appendDirectory (Name item))))).

(** Lines 84-103. *)
Definition detectRootFiles (rootPath : string) : Detect unit :=
  do res <- call (hasGoFiles rootPath);
  when res
    (do contents <- call (ioutil_ReadDir E rootPath);
     forRange contents (fun item =>
       when (isGoFile item) (modify (appendGoSourceFile (Name item))))).

(** Lines 107-116. *)
Definition detectVersionPackage (rootPath : string) : Detect unit :=
  forRange versionCandidates (fun candidate =>
    do exists_ <- call (directoryExists E rootPath candidate);
    when exists_
      (do canonical <- gets CanonicalPath;
       modify (setVersionPackage (path_Join E canonical candidate)))).

(** Lines 118-136. *)
Definition detectCommands (rootPath : string) : Detect unit :=
  do cmdExists <- call (directoryExists E rootPath "cmd");
  when cmdExists
    (do dirs <- call (ioutil_ReadDir E (filepath_Join E rootPath "cmd"));
     forRange dirs (fun dir =>
       when (IsDir dir) (modify (appendCommand (Name dir))))).

(** Lines 41-138: what runs once the manifest has been opened. *)
Definition detectOpened (gomod : File) (rootPath : string) : Detect unit :=
  do contents <- call (ioutil_ReadAll gomod);
  do _ <- modify (setCanonicalPath (modfile_ModulePath E contents));
  do _ <- detectSourceDirs rootPath;
  do _ <- detectFallbackDirs rootPath;
  do _ <- detectRootFiles rootPath;
  do _ <- modify (appendSourceFiles ["go.mod"; "go.sum"]);
  do _ <- detectVersionPackage rootPath;
  detectCommands rootPath.

(** [DetectGolang(rootPath, options)]: the pair [(bool, error)] it
    returns and the descriptor as the call leaves it. *)
Definition DetectGolang (rootPath : string) (options : Options)
  : (bool * option error) * Options :=
  let gomodPath := filepath_Join E rootPath "go.mod" in
  match os_Open E gomodPath with
  | inl err =>
      if os_IsNotExist err then ((false, None), options)
      else ((false, Some err), options)
  | inr gomod =>
      match detectOpened gomod rootPath options with
      | (inl err, options') => ((true, Some err), options')
      | (inr _, options') => ((true, None), options')
      end
  end.

End Detection.

(** ** What a run of the detector finds

    Each block of [DetectGolang] is a loop that tests the entries of a
    list and appends the accepted ones. The functions below compute, from
    the environment alone, what each block accepts or the error it stops
    with; the lemmas further down relate them to the blocks. *)

(** Entries accepted by a fallible test, or the first error met. *)
Fixpoint selectM {A} (test : A -> error + bool) (xs : list A)
  : error + list A :=
  match xs with
  | [] => inr []
  | x :: rest =>
      match test x with
      | inl err => inl err
      | inr b =>
          match selectM test rest with
          | inl err => inl err
          | inr l => inr (if b then x :: l else l)
          end
      end
  end.

Definition appendDirectories (ds : list string) (o : Options) : Options :=
  mkOptions (CanonicalPath o) (Directories o ++ ds) (GoDirectories o ++ ds)
    (SourceFiles o) (GoSourceFiles o) (VersionPackage o) (Commands o).

Definition appendGoSourceFiles (fs : list string) (o : Options) : Options :=
  mkOptions (CanonicalPath o) (Directories o) (GoDirectories o)
    (SourceFiles o ++ fs) (GoSourceFiles o ++ fs) (VersionPackage o)
    (Commands o).

Definition appendCommands (cs : list string) (o : Options) : Options :=
  mkOptions (CanonicalPath o) (Directories o) (GoDirectories o)
    (SourceFiles o) (GoSourceFiles o) (VersionPackage o) (Commands o ++ cs).

Section Outcomes.
Context (E : Env).

(** [directoryExists] answered [(true, nil)]. *)
Definition dirExists (rootPath name : string) : bool :=
  match directoryExists E rootPath name with
  | inr true => true
  | _ => false
  end.

Definition conventionalDirs (rootPath : string) : error + list string :=
  selectM (directoryExists E rootPath) sourceDirNames.

Definition fallbackTest (rootPath : string) (item : FileInfo)
  : error + bool :=
  if negb (IsDir item) then inr false
  else hasGoFiles E (filepath_Join E rootPath (Name item)).

Definition fallbackDirs (rootPath : string) : error + list string :=
  match ioutil_ReadDir E rootPath with
  | inl err => inl err
  | inr topLevel =>
      match selectM (fallbackTest rootPath) topLevel with
      | inl err => inl err
      | inr l => inr (map Name l)
      end
  end.

Definition rootGoFiles (rootPath : string) : error + list string :=
  match hasGoFiles E rootPath with
  | inl err => inl err
  | inr false => inr []
  | inr true =>
      match ioutil_ReadDir E rootPath with
      | inl err => inl err
      | inr contents => inr (map Name (List.filter isGoFile contents))
      end
  end.

Definition versionDirs (rootPath : string) : error + list string :=
  selectM (directoryExists E rootPath) versionCandidates.

(** Every existing candidate overwrites the field in turn. *)
Definition applyVersions (cs : list string) (o : Options) : Options :=
  fold_left
    (fun o c => setVersionPackage (path_Join E (CanonicalPath o) c) o) cs o.

Definition commandNames (rootPath : string) : error + list string :=
  match directoryExists E rootPath "cmd" with
  | inl err => inl err
  | inr false => inr []
  | inr true =>
      match ioutil_ReadDir E (filepath_Join E rootPath "cmd") with
      | inl err => inl err
      | inr dirs => inr (map Name (List.filter IsDir dirs))
      end
  end.

(** The fallback scan runs only on an empty [GoDirectories]. *)
Definition fallbackOutcome (rootPath : string) (o : Options)
  : error + list string :=
  match GoDirectories o with
  | [] => fallbackDirs rootPath
  | _ :: _ => inr []
  end.

(** The descriptor left by a run in which every step went through:
    [contents] is the manifest, [ds] the conventional directories found,
    [fb] the directories of the fallback scan, [fs] the Go files at the
    root, [vs] the version packages found and [cs] the commands. *)
Definition detected (contents : string) (ds fb fs vs cs : list string)
    (o : Options) : Options :=
  appendCommands cs
    (applyVersions vs
       (appendSourceFiles ["go.mod"; "go.sum"]
          (appendGoSourceFiles fs
             (appendDirectories fb
                (appendDirectories ds
                   (setCanonicalPath (modfile_ModulePath E contents) o)))))).

End Outcomes.

(** ** Pipeline nodes

    The [dag] package and the node factories ([golang.New...],
    [common.New...], [service.NewCodeCov], [wrap.Drone]) are declared in
    other packages of the repository. Nodes are Go pointers: they live in
    a store and are referred to by their position in it, so that one node
    can be the input of many. *)

(** Modelled from the spec: the identity of a node, opaque and unique per
    constructed node; here the position of the node in the store. *)
Abbreviation NodeId := nat.

(** What each factory constructs; [Upstream] stands for the nodes of
    other builders. *)
Inductive NodeKind : Type :=
| Toolchain
| GolangciLint
| Gofumpt
| Lint
| UnitTests
| CodeCov (InputPath : string)
| Build (name sourcePath : string)
| Image (name : string)
| FHS
| CACerts
| Drone
| Upstream (label : string).

(** Modelled from the spec: a node of the [dag] package, with its ordered
    sequence of inputs (references to other nodes, not copies). *)
Record Node : Type := mkNode {
  kind : NodeKind;
  inputs : list NodeId
}.

(** What the builder does to the store, in order: the construction of a
    node and the addition of an edge. The history is not data of the
    program; it records when each edge was added. *)
Inductive Event : Type :=
| EvNew (id : NodeId)
| EvEdge (src dst : NodeId).

Record Graph : Type := mkGraph {
  nodes : list Node;
  history : list Event
}.

Definition Builder (A : Type) : Type := Graph -> A * Graph.

Definition bret {A} (a : A) : Builder A := fun g => (a, g).

Definition bbind {A B} (c : Builder A) (k : A -> Builder B) : Builder B :=
  fun g => let (a, g') := c g in k a g'.

Notation "'let!' x ':=' c 'in' k" := (bbind c (fun x => k))
  (at level 10, x name, c at level 100, k at level 200).

(** Modelled from the spec: what every node factory does. It returns a
    freshly constructed node, with an identity of its own and no inputs;
    factories do not fail. *)
Definition newNode (k : NodeKind) : Builder NodeId :=
  fun g =>
    let id := length (nodes g) in
    (id, mkGraph (nodes g ++ [mkNode k []]) (history g ++ [EvNew id])).

Definition addInputs (input : list NodeId) (n : Node) : Node :=
  mkNode (kind n) (inputs n ++ input).

(** Modelled from the spec: [node.AddInput(input...)] appends to the
    inputs of the node it is called on. *)
Definition AddInput (node : NodeId) (input : list NodeId) : Builder unit :=
  fun g =>
    (tt, mkGraph (alter (addInputs input) node (nodes g))
           (history g ++ map (EvEdge node) input)).

Definition setInputPath (path : string) (n : Node) : Node :=
  match kind n with
  | CodeCov _ => mkNode (CodeCov path) (inputs n)
  | _ => n
  end.

(** [coverage.InputPath = path]. *)
Definition SetInputPath (node : NodeId) (path : string) : Builder unit :=
  fun g => (tt, mkGraph (alter (setInputPath path) node (nodes g)) (history g)).

Definition golang_NewToolchain (meta : Options) : Builder NodeId :=
  newNode Toolchain.
Definition golang_NewGolangciLint (meta : Options) : Builder NodeId :=
  newNode GolangciLint.
Definition golang_NewGofumpt (meta : Options) : Builder NodeId :=
  newNode Gofumpt.
Definition common_NewLint (meta : Options) : Builder NodeId :=
  newNode Lint.
Definition golang_NewUnitTests (meta : Options) : Builder NodeId :=
  newNode UnitTests.
Definition service_NewCodeCov (meta : Options) : Builder NodeId :=
  newNode (CodeCov "").
Definition golang_NewBuild (meta : Options) (name sourcePath : string)
  : Builder NodeId :=
  newNode (Build name sourcePath).
Definition common_NewImage (meta : Options) (name : string) : Builder NodeId :=
  newNode (Image name).
Definition common_NewFHS (meta : Options) : Builder NodeId := newNode FHS.
Definition common_NewCACerts (meta : Options) : Builder NodeId :=
  newNode CACerts.

(** Modelled from the spec: [wrap.Drone(node)], the adapted view of
    [node] for the Drone renderer; a node of its own whose single input is
    the node it adapts. *)
Definition wrap_Drone (node : NodeId) : Builder NodeId :=
  let! w := newNode Drone in
  let! _ := AddInput w [node] in
  bret w.

(** ** The builder *)

Section Building.
Context (E : Env).

(** The body of [for _, cmd := range meta.Commands]. *)
Definition buildCommand (meta : Options) (toolchain lint unitTests : NodeId)
    (outputs : list NodeId) (cmd : string) : Builder (list NodeId) :=
  let! build := golang_NewBuild meta cmd (filepath_Join E "cmd" cmd) in
  let! _ := AddInput build [toolchain] in
  let! image := common_NewImage meta cmd in
  let! fhs := common_NewFHS meta in
  let! cacerts := common_NewCACerts meta in
  let! drone := wrap_Drone unitTests in
  let! _ := AddInput image [build; fhs; cacerts; lint; drone] in
  bret (outputs ++ [build; image])%list.

Fixpoint buildCommands (meta : Options) (toolchain lint unitTests : NodeId)
    (outputs : list NodeId) (cmds : list string) : Builder (list NodeId) :=
  match cmds with
  | [] => bret outputs
  | cmd :: rest =>
      let! outputs' := buildCommand meta toolchain lint unitTests outputs cmd in
      buildCommands meta toolchain lint unitTests outputs' rest
  end.

(** [BuildGolang(meta, inputs)]: the pair [([]dag.Node, error)] it
    returns, in the store the call leaves behind. *)
Definition BuildGolang (meta : Options) (inputs : list NodeId)
  : Builder (list NodeId * option error) :=
  let! toolchain := golang_NewToolchain meta in
  let! _ := AddInput toolchain inputs in
  let! golangciLint := golang_NewGolangciLint meta in
  let! gofumpt := golang_NewGofumpt meta in
  let! _ := AddInput toolchain [golangciLint; gofumpt] in
  let! lint := common_NewLint meta in
  let! _ := AddInput lint [toolchain; golangciLint; gofumpt] in
  let! unitTests := golang_NewUnitTests meta in
  let! _ := AddInput unitTests [toolchain] in
  let! coverage := service_NewCodeCov meta in
  let! _ := SetInputPath coverage "coverage.txt" in
  let! _ := AddInput coverage [unitTests] in
  let! outputs :=
    buildCommands meta toolchain lint unitTests [lint; unitTests; coverage]
      (Commands meta) in
  bret (outputs, None).

End Building.

(** ** The shape of the built graph

    What [BuildGolang] adds to a store of [n] nodes, written out: six
    fixed nodes, then five nodes for each command. *)
Section BuildShape.
Context (E : Env).

Definition baseNodes (n : nat) (inputs : list NodeId) : list Node :=
  [ mkNode Toolchain (inputs ++ [n + 1; n + 2]);
    mkNode GolangciLint [];
    mkNode Gofumpt [];
    mkNode Lint [n; n + 1; n + 2];
    mkNode UnitTests [n];
    mkNode (CodeCov "coverage.txt") [n + 4] ].

Definition baseEvents (n : nat) (inputs : list NodeId) : list Event :=
  EvNew n :: map (EvEdge n) inputs ++
  [ EvNew (n + 1); EvNew (n + 2); EvEdge n (n + 1); EvEdge n (n + 2);
    EvNew (n + 3); EvEdge (n + 3) n; EvEdge (n + 3) (n + 1);
    EvEdge (n + 3) (n + 2);
    EvNew (n + 4); EvEdge (n + 4) n;
    EvNew (n + 5); EvEdge (n + 5) (n + 4) ].

Definition commandNodes (toolchain lint unitTests b : NodeId) (cmd : string)
  : list Node :=
  [ mkNode (Build cmd (filepath_Join E "cmd" cmd)) [toolchain];
    mkNode (Image cmd) [b; b + 2; b + 3; lint; b + 4];
    mkNode FHS [];
    mkNode CACerts [];
    mkNode Drone [unitTests] ].

Definition commandEvents (toolchain lint unitTests b : NodeId) : list Event :=
  [ EvNew b; EvEdge b toolchain;
    EvNew (b + 1); EvNew (b + 2); EvNew (b + 3);
    EvNew (b + 4); EvEdge (b + 4) unitTests;
    EvEdge (b + 1) b; EvEdge (b + 1) (b + 2); EvEdge (b + 1) (b + 3);
    EvEdge (b + 1) lint; EvEdge (b + 1) (b + 4) ].

Fixpoint commandsNodes (toolchain lint unitTests b : NodeId)
    (cmds : list string) : list Node :=
  match cmds with
  | [] => []
  | cmd :: rest =>
      commandNodes toolchain lint unitTests b cmd ++
      commandsNodes toolchain lint unitTests (b + 5) rest
  end.

Fixpoint commandsEvents (toolchain lint unitTests b : NodeId)
    (cmds : list string) : list Event :=
  match cmds with
  | [] => []
  | _ :: rest =>
      commandEvents toolchain lint unitTests b ++
      commandsEvents toolchain lint unitTests (b + 5) rest
  end.

Fixpoint commandsOutputs (b : NodeId) (cmds : list string) : list NodeId :=
  match cmds with
  | [] => []
  | _ :: rest => b :: (b + 1) :: commandsOutputs (b + 5) rest
  end.

Definition builtNodes (n : nat) (inputs : list NodeId) (cmds : list string)
  : list Node :=
  baseNodes n inputs ++ commandsNodes n (n + 3) (n + 4) (n + 6) cmds.

Definition builtEvents (n : nat) (inputs : list NodeId) (cmds : list string)
  : list Event :=
  baseEvents n inputs ++ commandsEvents n (n + 3) (n + 4) (n + 6) cmds.

End BuildShape.

(** ** Graphs *)

(** [y] is an input of [x]. *)
Definition edge (g : list Node) (x y : NodeId) : Prop :=
  exists nd, g !! x = Some nd /\ y ∈ inputs nd.

(** No node reaches itself through one or more input edges. *)
Definition acyclic (g : list Node) : Prop :=
  forall x, ~ tc (edge g) x x.

(** Every input refers to a node of the store. *)
Definition closed (g : list Node) : Prop :=
  forall x y, edge g x y -> y < length g.

Definition kindAt (g : list Node) (x : NodeId) : option NodeKind :=
  kind <$> g !! x.

Definition inputsAt (g : list Node) (x : NodeId) : list NodeId :=
  match g !! x with
  | Some nd => inputs nd
  | None => []
  end.

(** Identities constructed along a history. *)
Fixpoint newIds (evs : list Event) : list NodeId :=
  match evs with
  | [] => []
  | EvNew id :: rest => id :: newIds rest
  | EvEdge _ _ :: rest => newIds rest
  end.

(** Identities, counted from [start], of the nodes whose kind passes [p]. *)
Fixpoint idsWhere (p : NodeKind -> bool) (start : NodeId) (l : list Node)
  : list NodeId :=
  match l with
  | [] => []
  | nd :: rest =>
      if p (kind nd) then start :: idsWhere p (S start) rest
      else idsWhere p (S start) rest
  end.

Definition isToolchain (k : NodeKind) : bool :=
  match k with Toolchain => true | _ => false end.
Definition isStaticAnalysis (k : NodeKind) : bool :=
  match k with GolangciLint | Gofumpt => true | _ => false end.
Definition isLint (k : NodeKind) : bool :=
  match k with Lint => true | _ => false end.
Definition isBuild (k : NodeKind) : bool :=
  match k with Build _ _ => true | _ => false end.
Definition isImage (k : NodeKind) : bool :=
  match k with Image _ => true | _ => false end.

(** The stage of a node kind: every edge the builder adds between two of
    its own nodes goes to a strictly earlier stage. *)
Definition stage (k : NodeKind) : nat :=
  match k with
  | GolangciLint | Gofumpt | FHS | CACerts | Upstream _ => 0
  | Toolchain => 1
  | Lint | UnitTests | Build _ _ => 2
  | CodeCov _ | Drone => 3
  | Image _ => 4
  end.

Definition stageAt (g : list Node) (x : NodeId) : nat :=
  match g !! x with
  | Some nd => stage (kind nd)
  | None => 0
  end.

(** ** Concrete project trees

    A small in-memory filesystem to run the detector on: full paths
    mapped to what is found there. *)
Inductive Entry : Type :=
| RegularFile (contents : string)
| Directory (listing : list FileInfo)
| Unreadable.

Definition Tree : Type := list (string * Entry).

Fixpoint findEntry (t : Tree) (p : string) : option Entry :=
  match t with
  | [] => None
  | (q, e) :: rest => if String.eqb q p then Some e else findEntry rest p
  end.

(** [filepath.Join] and [path.Join] on operands that are already clean:
    empty elements are dropped, the others are joined by a slash. *)
Definition joinClean (a b : string) : string :=
  if String.eqb a "" then b
  else if String.eqb b "" then a
  else a ++ "/" ++ b.

(** [modfile.ModulePath] on a manifest that consists of the module
    directive alone. *)
Definition moduleDirective (contents : string) : string :=
  if String.prefix "module " contents
  then String.substring 7 (String.length contents - 7) contents
  else "".

Definition treeEnv (t : Tree) : Env :=
  {| os_Open p :=
       match findEntry t p with
       | None => inl ErrNotExist
       | Some (RegularFile c) => inr (mkFile (inr c))
       | Some (Directory _) => inr (mkFile (inl (ErrOther "is a directory")))
       | Some Unreadable => inl ErrPermission
       end;
     ioutil_ReadDir p :=
       match findEntry t p with
       | None => inl ErrNotExist
       | Some (RegularFile _) => inl (ErrOther "not a directory")
       | Some (Directory l) => inr l
       | Some Unreadable => inl ErrPermission
       end;
     directoryExists root name :=
       match findEntry t (joinClean root name) with
       | None => inr false
       | Some (RegularFile _) => inr false
       | Some (Directory _) => inr true
       | Some Unreadable => inl ErrPermission
       end;
     filepath_Join := joinClean;
     path_Join := joinClean;
     modfile_ModulePath := moduleDirective |}.

Definition file (name : string) : FileInfo := mkFileInfo name false.
Definition dir (name : string) : FileInfo := mkFileInfo name true.

(** A project with a manifest, a loose source file, a command, both
    version packages and one directory outside the conventional names
    that holds Go code. *)
Definition appTree : Tree :=
  [ ("/app", Directory [dir "cmd"; file "go.mod"; dir "internal";
                        file "main.go"; dir "pkg"; dir "tools"]);
    ("/app/go.mod", RegularFile "module example.org/app");
    ("/app/main.go", RegularFile "package main");
    ("/app/cmd", Directory [file "README.md"; dir "server"]);
    ("/app/cmd/server", Directory [file "main.go"]);
    ("/app/internal", Directory [dir "version"]);
    ("/app/internal/version", Directory [file "version.go"]);
    ("/app/pkg", Directory [dir "version"]);
    ("/app/pkg/version", Directory [file "version.go"]);
    ("/app/tools", Directory [file "gen.go"]) ].

(** A project without conventional directories. *)
Definition flatTree : Tree :=
  [ ("/flat", Directory [dir "docs"; file "go.mod"; dir "lib"]);
    ("/flat/go.mod", RegularFile "module example.org/flat");
    ("/flat/docs", Directory [file "index.md"]);
    ("/flat/lib", Directory [file "lib.go"]) ].

(** No manifest. *)
Definition plainTree : Tree :=
  [ ("/plain", Directory [file "Makefile"; dir "src"]);
    ("/plain/src", Directory [file "main.c"]) ].

(** A manifest that cannot be opened. *)
Definition lockedTree : Tree :=
  [ ("/locked", Directory [file "go.mod"; dir "pkg"]);
    ("/locked/go.mod", Unreadable);
    ("/locked/pkg", Directory []) ].

(** A descriptor that an earlier detector has already written to. *)
Definition usedOptions : Options :=
  mkOptions "old" ["web"] [] ["package.json"] [] "old/version" ["ui"].

(** A store holding two upstream nodes, the second built on the first. *)
Definition upstreamGraph : Graph :=
  mkGraph [mkNode (Upstream "checkout") []; mkNode (Upstream "setup") [0]] [].

(** A history is ordered over the identities [known] so far when every
    edge in it goes to an identity that is known when the edge is added:
    one of those given at the start or one constructed earlier in the
    history. *)
Fixpoint ordered (known : list NodeId) (evs : list Event) : Prop :=
  match evs with
  | [] => True
  | EvNew id :: rest => ordered (id :: known) rest
  | EvEdge _ dst :: rest => dst ∈ known /\ ordered known rest
  end.

(** A manifest path that is a directory: [os.Open] succeeds on it and
    reading from it fails. *)
Definition dirManifestTree : Tree :=
  [ ("/odd", Directory [dir "go.mod"; dir "pkg"]);
    ("/odd/go.mod", Directory []);
    ("/odd/pkg", Directory []) ].

(** A project whose "pkg" entry cannot be inspected. *)
Definition guardedTree : Tree :=
  [ ("/guarded", Directory [file "go.mod"; dir "internal"; dir "pkg"]);
    ("/guarded/go.mod", RegularFile "module example.org/guarded");
    ("/guarded/internal", Directory [file "a.go"]);
    ("/guarded/pkg", Unreadable) ].

(** [o'] is [o] with entries appended: [Directories] and [GoDirectories]
    by the same entries, the other sequences each by some entries. *)
Definition grows (o o' : Options) : Prop :=
  (exists ds,
      Directories o' = (Directories o ++ ds)%list /\
      GoDirectories o' = (GoDirectories o ++ ds)%list) /\
  (exists fs, SourceFiles o' = (SourceFiles o ++ fs)%list) /\
  (exists fs, GoSourceFiles o' = (GoSourceFiles o ++ fs)%list) /\
  (exists cs, Commands o' = (Commands o ++ cs)%list).

(** A computation relates every descriptor it starts from to the one it
    leaves, whether it ends with an error or not. *)
Definition respects (R : Options -> Options -> Prop) {A} (c : Detect A)
  : Prop :=
  forall o, R o (c o).2.

(** Two environments give the same answers: what the detector can
    observe of the filesystem, and what the library functions compute, is
    the same in both. This is how an unchanged filesystem looks to two
    calls made one after the other. *)
Definition sameAnswers (E1 E2 : Env) : Prop :=
  (forall p, os_Open E1 p = os_Open E2 p) /\
  (forall p, ioutil_ReadDir E1 p = ioutil_ReadDir E2 p) /\
  (forall root name, directoryExists E1 root name
                     = directoryExists E2 root name) /\
  (forall a b, filepath_Join E1 a b = filepath_Join E2 a b) /\
  (forall a b, path_Join E1 a b = path_Join E2 a b) /\
  (forall c, modfile_ModulePath E1 c = modfile_ModulePath E2 c).

(** [appTree] written down a second time, with two entries that are never
    reached because the paths are already taken. *)
Definition appTreeAgain : Tree :=
  (appTree ++
   [ ("/app/go.mod", RegularFile "module example.org/other");
     ("/app/pkg", Unreadable) ])%list.

Open Scope list_scope.

(** * Properties of the detector *)

Lemma selectM_filter {A} (test : A -> error + bool) (xs l : list A) :
  selectM test xs = inr l ->
  l = List.filter
        (fun x => match test x with inr true => true | _ => false end) xs.
Proof.
  revert l. induction xs as [|x xs IH]; intros l; simpl.
  - intros [= <-]. reflexivity.
  - destruct (test x) as [e|b]; [discriminate|].
    destruct (selectM test xs) as [e|l']; [discriminate|].
    intros [= <-]. rewrite (IH l' eq_refl). destruct b; reflexivity.
Qed.

(** A loop whose body tests the entry and, when the test passes, updates
    the descriptor: it stops at the first error, and otherwise applies
    the update for each selected entry in order. *)
Lemma forRange_select {A} (test : A -> error + bool)
    (upd : A -> Options -> Options) (body : A -> Detect unit) (xs : list A) :
  (forall x o,
      body x o = match test x with
                 | inl e => (inl e, o)
                 | inr true => (inr tt, upd x o)
                 | inr false => (inr tt, o)
                 end) ->
  forall o,
    match selectM test xs with
    | inr l => forRange xs body o = (inr tt, fold_left (fun o x => upd x o) l o)
    | inl e => fst (forRange xs body o) = inl e
    end.
Proof.
  intros Hbody. induction xs as [|x xs IH]; intros o; simpl; [reflexivity|].
  unfold dbind. rewrite Hbody.
  destruct (test x) as [e|b]; [reflexivity|].
  destruct b.
  - specialize (IH (upd x o)).
    destruct (selectM test xs) as [e|l]; simpl; assumption.
  - specialize (IH o).
    destruct (selectM test xs) as [e|l]; simpl; assumption.
Qed.

Lemma fold_appendDirectory (l : list string) (o : Options) :
  fold_left (fun o d => appendDirectory d o) l o = appendDirectories l o.
Proof.
  revert o. induction l as [|d l IH]; intros o; simpl.
  - destruct o; unfold appendDirectories; simpl. by rewrite !app_nil_r.
  - rewrite IH. unfold appendDirectories, appendDirectory; simpl.
    by rewrite <- !app_assoc.
Qed.

Lemma fold_appendGoSourceFile (l : list string) (o : Options) :
  fold_left (fun o f => appendGoSourceFile f o) l o = appendGoSourceFiles l o.
Proof.
  revert o. induction l as [|d l IH]; intros o; simpl.
  - destruct o; unfold appendGoSourceFiles; simpl. by rewrite !app_nil_r.
  - rewrite IH. unfold appendGoSourceFiles, appendGoSourceFile; simpl.
    by rewrite <- !app_assoc.
Qed.

Lemma fold_appendCommand (l : list string) (o : Options) :
  fold_left (fun o c => appendCommand c o) l o = appendCommands l o.
Proof.
  revert o. induction l as [|d l IH]; intros o; simpl.
  - destruct o; unfold appendCommands; simpl. by rewrite !app_nil_r.
  - rewrite IH. unfold appendCommands, appendCommand; simpl.
    by rewrite <- !app_assoc.
Qed.

Lemma fold_left_map {A B C} (f : C -> B -> C) (g : A -> B) (l : list A) (c : C) :
  fold_left f (map g l) c = fold_left (fun c x => f c (g x)) l c.
Proof. revert c. induction l as [|x l IH]; intros c; simpl; [done|apply IH]. Qed.

Lemma selectM_total {A} (p : A -> bool) (xs : list A) :
  selectM (fun x => inr (p x)) xs = inr (List.filter p xs).
Proof.
  induction xs as [|x xs IH]; simpl; [done|]. rewrite IH. by destruct (p x).
Qed.

Section DetectBlocks.
Context (E : Env).

Lemma detectSourceDirs_spec (rootPath : string) (o : Options) :
  match conventionalDirs E rootPath with
  | inr l => detectSourceDirs E rootPath o = (inr tt, appendDirectories l o)
  | inl e => fst (detectSourceDirs E rootPath o) = inl e
  end.
Proof.
  unfold conventionalDirs, detectSourceDirs.
  pose proof (forRange_select (directoryExists E rootPath) appendDirectory
    (fun srcDir =>
       do exists_ <- call (directoryExists E rootPath srcDir);
       when exists_ (modify (appendDirectory srcDir)))
    sourceDirNames) as H.
  specialize (H ltac:(intros x o'; unfold dbind, call;
    destruct (directoryExists E rootPath x) as [e|[]]; reflexivity) o).
  destruct (selectM _ sourceDirNames); [exact H|].
  by rewrite H, fold_appendDirectory.
Qed.

Lemma detectFallbackDirs_spec (rootPath : string) (o : Options) :
  match fallbackOutcome E rootPath o with
  | inr l => detectFallbackDirs E rootPath o = (inr tt, appendDirectories l o)
  | inl e => fst (detectFallbackDirs E rootPath o) = inl e
  end.
Proof.
  pose proof (fun topLevel => forRange_select (fallbackTest E rootPath)
    (fun item => appendDirectory (Name item))
    (fun item =>
       if negb (IsDir item) then dret tt
       else
         do result <- call (hasGoFiles E (filepath_Join E rootPath (Name item)));
         when result (modify (appendDirectory (Name item))))
    topLevel
    ltac:(intros x o'; unfold fallbackTest, dbind, call;
          destruct (negb (IsDir x)); [reflexivity|];
          destruct (hasGoFiles E _) as [e|[]]; reflexivity) o) as H.
  unfold fallbackOutcome, detectFallbackDirs, fallbackDirs in *.
  unfold dbind, call, gets in *.
  destruct (GoDirectories o) as [|d ds] eqn:Hgo; simpl.
  2:{ destruct o; unfold appendDirectories; simpl in *. by rewrite !app_nil_r. }
  destruct (ioutil_ReadDir E rootPath) as [e|topLevel]; [reflexivity|].
  specialize (H topLevel).
  destruct (selectM _ topLevel); [exact H|].
  by rewrite H, <- fold_appendDirectory, fold_left_map.
Qed.

Lemma detectRootFiles_spec (rootPath : string) (o : Options) :
  match rootGoFiles E rootPath with
  | inr l => detectRootFiles E rootPath o = (inr tt, appendGoSourceFiles l o)
  | inl e => fst (detectRootFiles E rootPath o) = inl e
  end.
Proof.
  unfold rootGoFiles, detectRootFiles, dbind, call.
  destruct (hasGoFiles E rootPath) as [e|[]]; simpl; [reflexivity| |].
  2:{ destruct o; unfold appendGoSourceFiles; simpl. by rewrite !app_nil_r. }
  destruct (ioutil_ReadDir E rootPath) as [e|contents]; [reflexivity|].
  pose proof (forRange_select (fun item => inr (isGoFile item))
    (fun item => appendGoSourceFile (Name item))
    (fun item => when (isGoFile item) (modify (appendGoSourceFile (Name item))))
    contents) as H.
  specialize (H ltac:(intros x o'; cbv beta; destruct (isGoFile x); reflexivity) o).
  rewrite selectM_total in H.
  by rewrite H, <- fold_appendGoSourceFile, fold_left_map.
Qed.

Lemma detectVersionPackage_spec (rootPath : string) (o : Options) :
  match versionDirs E rootPath with
  | inr l => detectVersionPackage E rootPath o = (inr tt, applyVersions E l o)
  | inl e => fst (detectVersionPackage E rootPath o) = inl e
  end.
Proof.
  unfold versionDirs, detectVersionPackage.
  pose proof (forRange_select (directoryExists E rootPath)
    (fun c o => setVersionPackage (path_Join E (CanonicalPath o) c) o)
    (fun candidate =>
       do exists_ <- call (directoryExists E rootPath candidate);
       when exists_
         (do canonical <- gets CanonicalPath;
          modify (setVersionPackage (path_Join E canonical candidate))))
    versionCandidates) as H.
  specialize (H ltac:(intros x o'; unfold dbind, call;
    destruct (directoryExists E rootPath x) as [e|[]]; reflexivity) o).
  destruct (selectM _ versionCandidates); exact H.
Qed.

Lemma detectCommands_spec (rootPath : string) (o : Options) :
  match commandNames E rootPath with
  | inr l => detectCommands E rootPath o = (inr tt, appendCommands l o)
  | inl e => fst (detectCommands E rootPath o) = inl e
  end.
Proof.
  unfold commandNames, detectCommands, dbind, call.
  destruct (directoryExists E rootPath "cmd") as [e|[]]; simpl; [reflexivity| |].
  2:{ destruct o; unfold appendCommands; simpl. by rewrite !app_nil_r. }
  destruct (ioutil_ReadDir E _) as [e|dirs]; [reflexivity|].
  pose proof (forRange_select (fun d => inr (IsDir d))
    (fun d => appendCommand (Name d))
    (fun d => when (IsDir d) (modify (appendCommand (Name d))))
    dirs) as H.
  specialize (H ltac:(intros x o'; cbv beta; destruct (IsDir x); reflexivity) o).
  rewrite selectM_total in H.
  by rewrite H, <- fold_appendCommand, fold_left_map.
Qed.

Ltac failed_block Hs Hrun :=
  match type of Hs with
  | fst ?c = inl _ =>
      destruct c as [[?|?] ?]; simpl in Hs; [discriminate Hrun|discriminate Hs]
  end.

Lemma detectOpened_ok_inv (gomod : File) (rootPath : string) (o o' : Options) :
  detectOpened E gomod rootPath o = (inr tt, o') ->
  exists contents ds fb fs vs cs,
    ioutil_ReadAll gomod = inr contents /\
    conventionalDirs E rootPath = inr ds /\
    fallbackOutcome E rootPath
      (appendDirectories ds
         (setCanonicalPath (modfile_ModulePath E contents) o)) = inr fb /\
    rootGoFiles E rootPath = inr fs /\
    versionDirs E rootPath = inr vs /\
    commandNames E rootPath = inr cs /\
    o' = detected E contents ds fb fs vs cs o.
Proof.
  unfold detectOpened. unfold dbind, call, modify. intros Hrun.
  destruct (ioutil_ReadAll gomod) as [e|contents]; [discriminate|].
  exists contents.
  set (o1 := setCanonicalPath _ o) in *.
  pose proof (detectSourceDirs_spec rootPath o1) as Hs.
  destruct (conventionalDirs E rootPath) as [e|ds]; [failed_block Hs Hrun|].
  rewrite Hs in Hrun; clear Hs. exists ds.
  set (o2 := appendDirectories ds o1) in *.
  pose proof (detectFallbackDirs_spec rootPath o2) as Hs.
  destruct (fallbackOutcome E rootPath o2) as [e|fb]; [failed_block Hs Hrun|].
  rewrite Hs in Hrun; clear Hs. exists fb.
  set (o3 := appendDirectories fb o2) in *.
  pose proof (detectRootFiles_spec rootPath o3) as Hs.
  destruct (rootGoFiles E rootPath) as [e|fs]; [failed_block Hs Hrun|].
  rewrite Hs in Hrun; clear Hs. exists fs.
  set (o4 := appendSourceFiles _ _) in *.
  pose proof (detectVersionPackage_spec rootPath o4) as Hs.
  destruct (versionDirs E rootPath) as [e|vs]; [failed_block Hs Hrun|].
  rewrite Hs in Hrun; clear Hs. exists vs.
  set (o5 := applyVersions E vs o4) in *.
  pose proof (detectCommands_spec rootPath o5) as Hs.
  destruct (commandNames E rootPath) as [e|cs]; [failed_block Hs Hrun|].
  rewrite Hs in Hrun; clear Hs. exists cs.
  injection Hrun as <-. by repeat split.
Qed.

Lemma detectOpened_ok_intro (gomod : File) (rootPath : string) (o : Options)
    (contents : string) (ds fb fs vs cs : list string) :
  ioutil_ReadAll gomod = inr contents ->
  conventionalDirs E rootPath = inr ds ->
  fallbackOutcome E rootPath
    (appendDirectories ds
       (setCanonicalPath (modfile_ModulePath E contents) o)) = inr fb ->
  rootGoFiles E rootPath = inr fs ->
  versionDirs E rootPath = inr vs ->
  commandNames E rootPath = inr cs ->
  detectOpened E gomod rootPath o = (inr tt, detected E contents ds fb fs vs cs o).
Proof.
  intros Hread Hds Hfb Hfs Hvs Hcs.
  unfold detectOpened. unfold dbind, call, modify. rewrite Hread.
  set (o1 := setCanonicalPath _ o) in *.
  pose proof (detectSourceDirs_spec rootPath o1) as Hs.
  rewrite Hds in Hs. rewrite Hs; clear Hs.
  pose proof (detectFallbackDirs_spec rootPath (appendDirectories ds o1)) as Hs.
  rewrite Hfb in Hs. rewrite Hs; clear Hs.
  set (o3 := appendDirectories fb _) in *.
  pose proof (detectRootFiles_spec rootPath o3) as Hs.
  rewrite Hfs in Hs. rewrite Hs; clear Hs.
  set (o4 := appendSourceFiles _ _) in *.
  pose proof (detectVersionPackage_spec rootPath o4) as Hs.
  rewrite Hvs in Hs. rewrite Hs; clear Hs.
  pose proof (detectCommands_spec rootPath (applyVersions E vs o4)) as Hs.
  rewrite Hcs in Hs. rewrite Hs; clear Hs.
  reflexivity.
Qed.

(** A successful run, read backwards. *)
Lemma DetectGolang_ok_inv (rootPath : string) (o o' : Options) :
  DetectGolang E rootPath o = (true, None, o') ->
  exists gomod contents ds fb fs vs cs,
    os_Open E (filepath_Join E rootPath "go.mod") = inr gomod /\
    ioutil_ReadAll gomod = inr contents /\
    conventionalDirs E rootPath = inr ds /\
    fallbackOutcome E rootPath
      (appendDirectories ds
         (setCanonicalPath (modfile_ModulePath E contents) o)) = inr fb /\
    rootGoFiles E rootPath = inr fs /\
    versionDirs E rootPath = inr vs /\
    commandNames E rootPath = inr cs /\
    o' = detected E contents ds fb fs vs cs o.
Proof.
  unfold DetectGolang. intros Hrun.
  destruct (os_Open E _) as [e|gomod].
  { destruct (os_IsNotExist e); discriminate. }
  destruct (detectOpened E gomod rootPath o) as [[e|[]] o''] eqn:Hopened;
    [discriminate|].
  injection Hrun as <-.
  apply detectOpened_ok_inv in Hopened as (contents & ds & fb & fs & vs & cs & H).
  exists gomod, contents, ds, fb, fs, vs, cs. tauto.
Qed.

Lemma DetectGolang_ok_intro (rootPath : string) (o : Options) (gomod : File)
    (contents : string) (ds fb fs vs cs : list string) :
  os_Open E (filepath_Join E rootPath "go.mod") = inr gomod ->
  ioutil_ReadAll gomod = inr contents ->
  conventionalDirs E rootPath = inr ds ->
  fallbackOutcome E rootPath
    (appendDirectories ds
       (setCanonicalPath (modfile_ModulePath E contents) o)) = inr fb ->
  rootGoFiles E rootPath = inr fs ->
  versionDirs E rootPath = inr vs ->
  commandNames E rootPath = inr cs ->
  DetectGolang E rootPath o = (true, None, detected E contents ds fb fs vs cs o).
Proof.
  intros Hopen Hread Hds Hfb Hfs Hvs Hcs. unfold DetectGolang. rewrite Hopen.
  by rewrite (detectOpened_ok_intro gomod rootPath o contents ds fb fs vs cs).
Qed.

End DetectBlocks.

(** ** The fields of the detected descriptor *)

Section DetectedFields.
Context (E : Env).

Lemma applyVersions_frame (vs : list string) (o : Options) :
  CanonicalPath (applyVersions E vs o) = CanonicalPath o /\
  Directories (applyVersions E vs o) = Directories o /\
  GoDirectories (applyVersions E vs o) = GoDirectories o /\
  SourceFiles (applyVersions E vs o) = SourceFiles o /\
  GoSourceFiles (applyVersions E vs o) = GoSourceFiles o /\
  Commands (applyVersions E vs o) = Commands o.
Proof.
  unfold applyVersions. revert o.
  induction vs as [|v vs IH]; intros o; simpl; [done|].
  destruct (IH (setVersionPackage (path_Join E (CanonicalPath o) v) o))
    as (-> & -> & -> & -> & -> & ->).
  done.
Qed.

Lemma applyVersions_VersionPackage (vs : list string) (o : Options) :
  VersionPackage (applyVersions E vs o) =
  match last vs with
  | Some c => path_Join E (CanonicalPath o) c
  | None => VersionPackage o
  end.
Proof.
  unfold applyVersions. revert o.
  induction vs as [|v vs IH]; intros o; simpl; [done|].
  rewrite IH. simpl. rewrite (last_cons v vs). by destruct (last vs).
Qed.

Lemma detected_CanonicalPath c ds fb fs vs cs o :
  CanonicalPath (detected E c ds fb fs vs cs o) = modfile_ModulePath E c.
Proof.
  unfold detected; simpl.
  by destruct (applyVersions_frame vs
    (appendSourceFiles ["go.mod"; "go.sum"]
       (appendGoSourceFiles fs
          (appendDirectories fb
             (appendDirectories ds
                (setCanonicalPath (modfile_ModulePath E c) o))))))
    as (-> & _).
Qed.

Lemma detected_Directories c ds fb fs vs cs o :
  Directories (detected E c ds fb fs vs cs o) = (Directories o ++ ds ++ fb)%list.
Proof.
  unfold detected; simpl.
  destruct (applyVersions_frame vs
    (appendSourceFiles ["go.mod"; "go.sum"]
       (appendGoSourceFiles fs
          (appendDirectories fb
             (appendDirectories ds
                (setCanonicalPath (modfile_ModulePath E c) o))))))
    as (_ & -> & _).
  simpl. by rewrite app_assoc.
Qed.

Lemma detected_GoDirectories c ds fb fs vs cs o :
  GoDirectories (detected E c ds fb fs vs cs o) = (GoDirectories o ++ ds ++ fb)%list.
Proof.
  unfold detected; simpl.
  destruct (applyVersions_frame vs
    (appendSourceFiles ["go.mod"; "go.sum"]
       (appendGoSourceFiles fs
          (appendDirectories fb
             (appendDirectories ds
                (setCanonicalPath (modfile_ModulePath E c) o))))))
    as (_ & _ & -> & _).
  simpl. by rewrite app_assoc.
Qed.

Lemma detected_SourceFiles c ds fb fs vs cs o :
  SourceFiles (detected E c ds fb fs vs cs o) =
  (SourceFiles o ++ fs ++ ["go.mod"; "go.sum"])%list.
Proof.
  unfold detected; simpl.
  destruct (applyVersions_frame vs
    (appendSourceFiles ["go.mod"; "go.sum"]
       (appendGoSourceFiles fs
          (appendDirectories fb
             (appendDirectories ds
                (setCanonicalPath (modfile_ModulePath E c) o))))))
    as (_ & _ & _ & -> & _).
  simpl. by rewrite app_assoc.
Qed.

Lemma detected_GoSourceFiles c ds fb fs vs cs o :
  GoSourceFiles (detected E c ds fb fs vs cs o) = (GoSourceFiles o ++ fs)%list.
Proof.
  unfold detected; simpl.
  by destruct (applyVersions_frame vs
    (appendSourceFiles ["go.mod"; "go.sum"]
       (appendGoSourceFiles fs
          (appendDirectories fb
             (appendDirectories ds
                (setCanonicalPath (modfile_ModulePath E c) o))))))
    as (_ & _ & _ & _ & -> & _).
Qed.

Lemma detected_Commands c ds fb fs vs cs o :
  Commands (detected E c ds fb fs vs cs o) = (Commands o ++ cs)%list.
Proof.
  unfold detected; simpl.
  by destruct (applyVersions_frame vs
    (appendSourceFiles ["go.mod"; "go.sum"]
       (appendGoSourceFiles fs
          (appendDirectories fb
             (appendDirectories ds
                (setCanonicalPath (modfile_ModulePath E c) o))))))
    as (_ & _ & _ & _ & _ & ->).
Qed.

Lemma detected_VersionPackage c ds fb fs vs cs o :
  VersionPackage (detected E c ds fb fs vs cs o) =
  match last vs with
  | Some v => path_Join E (modfile_ModulePath E c) v
  | None => VersionPackage o
  end.
Proof. unfold detected; simpl. by rewrite applyVersions_VersionPackage. Qed.

(** The directories found by the first loop are the conventional names
    for which [directoryExists] said yes, in the order of the list. *)
Lemma conventionalDirs_found (rootPath : string) (ds : list string) :
  conventionalDirs E rootPath = inr ds ->
  ds = List.filter (dirExists E rootPath) sourceDirNames.
Proof. intros H. apply selectM_filter in H. exact H. Qed.

Lemma versionDirs_found (rootPath : string) (vs : list string) :
  versionDirs E rootPath = inr vs ->
  vs = List.filter (dirExists E rootPath) versionCandidates.
Proof. intros H. apply selectM_filter in H. exact H. Qed.

Lemma rootGoFiles_suffix (rootPath : string) (fs : list string) :
  rootGoFiles E rootPath = inr fs ->
  forall f, f ∈ fs -> strings_HasSuffix f ".go" = true.
Proof.
  unfold rootGoFiles.
  destruct (hasGoFiles E rootPath) as [e|[]]; [discriminate| |].
  - destruct (ioutil_ReadDir E rootPath) as [e|contents]; [discriminate|].
    intros [= <-] f Hf.
    apply list_elem_of_fmap in Hf as (item & -> & Hitem).
    apply list_elem_of_In, filter_In in Hitem as [_ Hgo].
    unfold isGoFile in Hgo. by apply andb_true_iff in Hgo as [_ ?].
  - intros [= <-] f Hf. by apply elem_of_nil in Hf.
Qed.

Lemma commandNames_no_cmd (rootPath : string) (cs : list string) :
  commandNames E rootPath = inr cs ->
  dirExists E rootPath "cmd" = false ->
  cs = [].
Proof.
  unfold commandNames, dirExists.
  destruct (directoryExists E rootPath "cmd") as [e|[]]; [discriminate| |].
  - discriminate.
  - by intros [= <-].
Qed.

End DetectedFields.

(** ** Theorems about the detector *)

Lemma appendDirectories_nil (o : Options) : appendDirectories [] o = o.
Proof. destruct o; unfold appendDirectories; simpl. by rewrite !app_nil_r. Qed.

Lemma fallbackOutcome_cases (E : Env) (rootPath : string) (o : Options)
    (fb : list string) :
  fallbackOutcome E rootPath o = inr fb ->
  (GoDirectories o = [] /\ fallbackDirs E rootPath = inr fb) \/
  (GoDirectories o <> [] /\ fb = []).
Proof.
  unfold fallbackOutcome. destruct (GoDirectories o) as [|d l].
  - intros H. by left.
  - intros [= <-]. by right.
Qed.

(** C4: when the manifest [go.mod] does not exist under the root (opening
    it fails with a not-exist error), [DetectGolang] returns
    [(false, nil)] and the descriptor passed in is left as it was, in
    every field. *)
Theorem DetectGolang_absent_manifest (E : Env) (rootPath : string)
    (options : Options) (err : error) :
  os_Open E (filepath_Join E rootPath "go.mod") = inl err ->
  os_IsNotExist err = true ->
  DetectGolang E rootPath options = (false, None, options).
Proof.
  intros Hopen Hne. unfold DetectGolang. by rewrite Hopen, Hne.
Qed.

Lemma DetectGolang_absent_manifest_witness :
  DetectGolang (treeEnv plainTree) "/plain" usedOptions
  = (false, None, usedOptions).
Proof.
  apply (DetectGolang_absent_manifest (treeEnv plainTree) "/plain" usedOptions
           ErrNotExist); reflexivity.
Defined.

(** C9: when opening the manifest fails with an error that is not a
    not-exist error, [DetectGolang] returns [false] together with that
    error (and leaves the descriptor alone); the flag returned is [true]
    exactly when the manifest was opened, so every later return, error or
    not, carries [true]. *)
Theorem DetectGolang_open_failure (E : Env) (rootPath : string)
    (options : Options) :
  (forall err,
      os_Open E (filepath_Join E rootPath "go.mod") = inl err ->
      os_IsNotExist err = false ->
      DetectGolang E rootPath options = (false, Some err, options)) /\
  ((DetectGolang E rootPath options).1.1 = true <->
   exists gomod, os_Open E (filepath_Join E rootPath "go.mod") = inr gomod).
Proof.
  unfold DetectGolang.
  destruct (os_Open E _) as [e|gomod].
  - split.
    + intros err [= <-] Hne. by rewrite Hne.
    + split.
      * destruct (os_IsNotExist e); discriminate.
      * intros [? [=]].
  - split; [discriminate|]. split; [eauto|]. intros _.
    by destruct (detectOpened E gomod rootPath options) as [[?|?] ?].
Qed.

Lemma DetectGolang_open_failure_witness :
  DetectGolang (treeEnv lockedTree) "/locked" usedOptions
  = (false, Some ErrPermission, usedOptions).
Proof.
  apply (proj1 (DetectGolang_open_failure (treeEnv lockedTree) "/locked"
                  usedOptions) ErrPermission); reflexivity.
Defined.

(** C1: in a successful run, when at least one of the conventional
    directories ("src", "internal", "pkg", "cmd") exists, what is appended
    to [Directories] and to [GoDirectories] is exactly the list of the
    existing conventional names, in the order of that list; lines 48-82
    then succeed with exactly these names appended whatever the directory
    listings answer, so the fallback scan is not run. A name outside the
    conventional list that the run added to [Directories] comes from the
    fallback scan, and then no conventional directory exists. *)
Theorem DetectGolang_source_roots (E : Env) (rootPath : string)
    (options options' : Options) :
  DetectGolang E rootPath options = (true, None, options') ->
  let found := List.filter (dirExists E rootPath) sourceDirNames in
  (found <> [] ->
     Directories options' = Directories options ++ found /\
     GoDirectories options' = GoDirectories options ++ found /\
     forall s,
       (do _ <- detectSourceDirs E rootPath;
        detectFallbackDirs E rootPath) s
       = (inr tt, appendDirectories found s)) /\
  (forall d,
     d ∈ Directories options' -> d ∉ Directories options ->
     d ∉ sourceDirNames ->
     found = [] /\ GoDirectories options = [] /\
     exists fb,
       fallbackDirs E rootPath = inr fb /\ d ∈ fb /\
       Directories options' = Directories options ++ fb /\
       GoDirectories options' = fb).
Proof.
  intros Hrun found.
  apply DetectGolang_ok_inv in Hrun
    as (gomod & contents & ds & fb & fs & vs & cs
        & Hopen & Hread & Hds & Hfb & Hfs & Hvs & Hcs & ->).
  pose proof (conventionalDirs_found E rootPath ds Hds) as Hfound.
  fold found in Hfound. subst ds.
  rewrite detected_Directories, detected_GoDirectories.
  apply fallbackOutcome_cases in Hfb as Hcases. simpl in Hcases.
  split.
  - intros Hne.
    assert (fb = []) as ->.
    { destruct Hcases as [[Hnil _]|[_ ->]]; [|done].
      by apply app_eq_nil in Hnil as [_ ?]. }
    rewrite !app_nil_r. repeat split.
    intros s. unfold dbind.
    pose proof (detectSourceDirs_spec E rootPath s) as Hs.
    rewrite Hds in Hs. rewrite Hs.
    pose proof (detectFallbackDirs_spec E rootPath (appendDirectories found s))
      as Hf.
    unfold fallbackOutcome in Hf. simpl in Hf.
    destruct (GoDirectories s ++ found) eqn:Happ.
    { by apply app_eq_nil in Happ as [_ ?]. }
    by rewrite Hf, appendDirectories_nil.
  - intros d Hd Hold Hconv.
    assert (d ∈ fb) as Hin.
    { rewrite !elem_of_app in Hd. destruct Hd as [?|[Hd|?]]; [done| |done].
      exfalso. apply Hconv. unfold found in Hd.
      apply list_elem_of_In, filter_In in Hd as [Hd _].
      by apply list_elem_of_In. }
    destruct Hcases as [[Hnil Hscan]|[_ ->]].
    + apply app_eq_nil in Hnil as [Hgo Hnone]. rewrite Hgo, Hnone.
      repeat split. by exists fb.
    + by apply elem_of_nil in Hin.
Qed.

Lemma DetectGolang_source_roots_witness :
  Directories (DetectGolang (treeEnv appTree) "/app" usedOptions).2
  = ["web"; "internal"; "pkg"; "cmd"].
Proof.
  destruct (DetectGolang_source_roots (treeEnv appTree) "/app" usedOptions
              (DetectGolang (treeEnv appTree) "/app" usedOptions).2 eq_refl)
    as [Hfound _].
  destruct Hfound as (Hd & _); [discriminate|exact Hd].
Defined.

Lemma HasSuffix_go_not_manifest (f : string) :
  strings_HasSuffix f ".go" = true -> f <> "go.mod" /\ f <> "go.sum".
Proof. intros H. split; intros ->; vm_compute in H; discriminate. Qed.

(** C8: after a successful run that started from the empty descriptor,
    [GoDirectories] is included in [Directories] and [GoSourceFiles] in
    [SourceFiles]; "go.mod" and "go.sum" are in [SourceFiles] and not in
    [GoSourceFiles]; and [Commands] is empty when there is no "cmd"
    directory. *)
Theorem DetectGolang_subsets (E : Env) (rootPath : string)
    (options' : Options) :
  DetectGolang E rootPath emptyOptions = (true, None, options') ->
  GoDirectories options' ⊆ Directories options' /\
  GoSourceFiles options' ⊆ SourceFiles options' /\
  "go.mod" ∈ SourceFiles options' /\
  "go.sum" ∈ SourceFiles options' /\
  ("go.mod" ∉ GoSourceFiles options') /\
  ("go.sum" ∉ GoSourceFiles options') /\
  (dirExists E rootPath "cmd" = false -> Commands options' = []).
Proof.
  intros Hrun.
  apply DetectGolang_ok_inv in Hrun
    as (gomod & contents & ds & fb & fs & vs & cs
        & Hopen & Hread & Hds & Hfb & Hfs & Hvs & Hcs & ->).
  rewrite detected_Directories, detected_GoDirectories, detected_SourceFiles,
    detected_GoSourceFiles, detected_Commands.
  simpl.
  pose proof (rootGoFiles_suffix E rootPath fs Hfs) as Hsuffix.
  repeat split.
  - done.
  - intros f Hf. apply elem_of_app. by left.
  - apply elem_of_app. right. apply list_elem_of_here.
  - apply elem_of_app. right. apply list_elem_of_further, list_elem_of_here.
  - intros Hin. by destruct (HasSuffix_go_not_manifest _ (Hsuffix _ Hin)).
  - intros Hin. by destruct (HasSuffix_go_not_manifest _ (Hsuffix _ Hin)).
  - intros Hcmd. apply (commandNames_no_cmd E rootPath cs Hcs Hcmd).
Qed.

Lemma DetectGolang_subsets_witness :
  GoSourceFiles (DetectGolang (treeEnv appTree) "/app" emptyOptions).2
  ⊆ SourceFiles (DetectGolang (treeEnv appTree) "/app" emptyOptions).2.
Proof.
  exact (proj1 (proj2
    (DetectGolang_subsets (treeEnv appTree) "/app"
       (DetectGolang (treeEnv appTree) "/app" emptyOptions).2 eq_refl))).
Defined.

(** C3, as stated, fails: in a project where both "pkg/version" and
    "internal/version" exist, detection succeeds and [VersionPackage] is
    not the canonical path joined with "pkg/version". *)
Lemma VersionPackage_first_match_refuted :
  let E := treeEnv appTree in
  let run := DetectGolang E "/app" emptyOptions in
  run.1 = (true, None) /\
  dirExists E "/app" "pkg/version" = true /\
  dirExists E "/app" "internal/version" = true /\
  VersionPackage run.2 <> path_Join E (CanonicalPath run.2) "pkg/version".
Proof. vm_compute. repeat split; discriminate. Qed.

(** C3, amended: the loop over the candidates has no early exit, so every
    existing candidate overwrites [VersionPackage] and the last existing
    one in the list order ("pkg/version", then "internal/version") wins.
    After a successful run the field is the canonical path joined with
    "internal/version" when that directory exists, else joined with
    "pkg/version" when that one exists, else what it was before. *)
Theorem VersionPackage_last_match (E : Env) (rootPath : string)
    (options options' : Options) :
  DetectGolang E rootPath options = (true, None, options') ->
  VersionPackage options' =
  if dirExists E rootPath "internal/version"
  then path_Join E (CanonicalPath options') "internal/version"
  else if dirExists E rootPath "pkg/version"
       then path_Join E (CanonicalPath options') "pkg/version"
       else VersionPackage options.
Proof.
  intros Hrun.
  apply DetectGolang_ok_inv in Hrun
    as (gomod & contents & ds & fb & fs & vs & cs
        & Hopen & Hread & Hds & Hfb & Hfs & Hvs & Hcs & ->).
  rewrite detected_VersionPackage, detected_CanonicalPath.
  rewrite (versionDirs_found E rootPath vs Hvs). simpl.
  destruct (dirExists E rootPath "pkg/version"),
    (dirExists E rootPath "internal/version"); reflexivity.
Qed.

Lemma VersionPackage_last_match_witness :
  VersionPackage (DetectGolang (treeEnv appTree) "/app" emptyOptions).2
  = "example.org/app/internal/version".
Proof.
  exact (VersionPackage_last_match (treeEnv appTree) "/app" emptyOptions
           (DetectGolang (treeEnv appTree) "/app" emptyOptions).2 eq_refl).
Defined.

(** Running the detector a second time on the descriptor that the first
    run filled in, against the same tree, leaves a different descriptor:
    the sequences are appended to once more. *)
Lemma DetectGolang_rerun_differs :
  let E := treeEnv appTree in
  let first := DetectGolang E "/app" emptyOptions in
  let second := DetectGolang E "/app" first.2 in
  first.1 = (true, None) /\ second.1 = (true, None) /\
  second.2 <> first.2 /\
  Directories second.2 <> Directories first.2 /\
  SourceFiles second.2 <> SourceFiles first.2 /\
  Commands second.2 <> Commands first.2.
Proof. vm_compute. repeat split; discriminate. Qed.

(** X16: a second run on the descriptor left by a successful first run,
    against the same environment, succeeds as well and leaves
    [CanonicalPath] and [VersionPackage] as the first run set them; each
    sequence keeps the first run's entries as a prefix and is appended to
    again: the existing conventional directories, the Go files at the
    root followed by "go.mod" and "go.sum", and the commands. *)
Theorem DetectGolang_rerun (E : Env) (rootPath : string)
    (options first : Options) :
  DetectGolang E rootPath options = (true, None, first) ->
  exists second fs cs,
    DetectGolang E rootPath first = (true, None, second) /\
    CanonicalPath second = CanonicalPath first /\
    VersionPackage second = VersionPackage first /\
    Directories second =
      (Directories first
       ++ List.filter (dirExists E rootPath) sourceDirNames)%list /\
    GoDirectories second =
      (GoDirectories first
       ++ List.filter (dirExists E rootPath) sourceDirNames)%list /\
    rootGoFiles E rootPath = inr fs /\
    SourceFiles second = (SourceFiles first ++ fs ++ ["go.mod"; "go.sum"])%list /\
    GoSourceFiles second = (GoSourceFiles first ++ fs)%list /\
    commandNames E rootPath = inr cs /\
    Commands second = (Commands first ++ cs)%list.
Proof.
  intros Hrun.
  apply DetectGolang_ok_inv in Hrun
    as (gomod & contents & ds & fb & fs & vs & cs
        & Hopen & Hread & Hds & Hfb & Hfs & Hvs & Hcs & ->).
  set (first := detected E contents ds fb fs vs cs options).
  assert (exists fb',
    fallbackOutcome E rootPath
      (appendDirectories ds
         (setCanonicalPath (modfile_ModulePath E contents) first)) = inr fb'
    /\ fb' = []) as (fb' & Hfb' & ->).
  { unfold fallbackOutcome.
    change (GoDirectories (appendDirectories ds
              (setCanonicalPath (modfile_ModulePath E contents) first)))
      with (GoDirectories first ++ ds)%list.
    unfold first. rewrite detected_GoDirectories.
    apply fallbackOutcome_cases in Hfb as [[Hnil Hscan]|[Hne ->]];
      simpl in *.
    - apply app_eq_nil in Hnil as [-> ->]. simpl.
      destruct fb as [|d fb]; simpl; eauto.
    - rewrite app_nil_r.
      destruct (GoDirectories options ++ ds)%list eqn:Happ; [done|].
      simpl. eauto. }
  exists (detected E contents ds [] fs vs cs first), fs, cs.
  split.
  { by apply (DetectGolang_ok_intro E rootPath first gomod). }
  rewrite detected_CanonicalPath, detected_VersionPackage,
    detected_Directories, detected_GoDirectories, detected_SourceFiles,
    detected_GoSourceFiles, detected_Commands.
  rewrite !app_nil_r.
  rewrite <- (conventionalDirs_found E rootPath ds Hds).
  unfold first at 1 2.
  rewrite detected_CanonicalPath, detected_VersionPackage.
  repeat split; try done.
  unfold first. rewrite detected_VersionPackage. by destruct (last vs).
Qed.

Lemma DetectGolang_rerun_witness :
  exists second,
    DetectGolang (treeEnv appTree) "/app"
      (DetectGolang (treeEnv appTree) "/app" emptyOptions).2
    = (true, None, second) /\
    VersionPackage second = "example.org/app/internal/version".
Proof.
  destruct (DetectGolang_rerun (treeEnv appTree) "/app" emptyOptions
              (DetectGolang (treeEnv appTree) "/app" emptyOptions).2 eq_refl)
    as (second & fs & cs & Hrun & _ & Hv & _).
  exists second. split; [exact Hrun|]. exact Hv.
Defined.

(** * Properties of the builder *)

Lemma alter_app_length {A} (f : A -> A) (l1 l2 : list A) :
  alter f (length l1) (l1 ++ l2) = l1 ++ alter f 0 l2.
Proof.
  rewrite <- (Nat.add_0_r (length l1)) at 1. apply alter_app_r.
Qed.

(** ** Extending an acyclic store *)

Section Extension.
Context (h news : list Node).
Hypothesis h_closed : closed h.
Hypothesis h_acyclic : acyclic h.
Hypothesis news_staged :
  forall x nd y,
    (h ++ news) !! x = Some nd -> length h <= x -> y ∈ inputs nd ->
    y < length h \/
    exists ny, (h ++ news) !! y = Some ny /\ stage (kind ny) < stage (kind nd).

Lemma edge_old (x y : NodeId) :
  x < length h -> edge (h ++ news) x y -> edge h x y.
Proof.
  intros Hx (nd & Hnd & Hy). exists nd. split; [|done].
  by rewrite lookup_app_l in Hnd.
Qed.

Lemma tc_old (x y : NodeId) :
  tc (edge (h ++ news)) x y -> x < length h ->
  tc (edge h) x y /\ y < length h.
Proof.
  induction 1 as [x y Hxy|x z y Hxz Hzy IH]; intros Hx.
  - apply edge_old in Hxy; [|done]. split; [by apply tc_once|].
    by apply (h_closed x).
  - apply edge_old in Hxz; [|done].
    destruct (IH (h_closed _ _ Hxz)) as [Htc Hy].
    split; [by eapply tc_l|done].
Qed.

Lemma edge_new (x y : NodeId) :
  edge (h ++ news) x y -> length h <= x ->
  y < length h \/
  (length h <= y /\ stageAt (h ++ news) y < stageAt (h ++ news) x).
Proof.
  intros (nd & Hnd & Hy) Hx.
  destruct (news_staged x nd y Hnd Hx Hy) as [?|(ny & Hny & Hlt)]; [by left|].
  destruct (decide (y < length h)); [by left|]. right.
  unfold stageAt. rewrite Hnd, Hny. lia.
Qed.

Lemma tc_new (x y : NodeId) :
  tc (edge (h ++ news)) x y -> length h <= x ->
  y < length h \/
  (length h <= y /\ stageAt (h ++ news) y < stageAt (h ++ news) x).
Proof.
  induction 1 as [x y Hxy|x z y Hxz Hzy IH]; intros Hx.
  - by apply edge_new.
  - destruct (edge_new x z Hxz Hx) as [Hz|[Hz Hlt]].
    + left. by apply (tc_old z y).
    + destruct (IH Hz) as [?|[? ?]]; [by left|]. right. lia.
Qed.

Lemma extend_acyclic : acyclic (h ++ news).
Proof.
  intros x Hcycle. destruct (decide (x < length h)) as [Hx|Hx].
  - apply (h_acyclic x). by apply tc_old.
  - destruct (tc_new x x Hcycle) as [?|[_ ?]]; lia.
Qed.

Lemma extend_closed : closed (h ++ news).
Proof.
  intros x y Hxy. rewrite length_app.
  destruct (decide (x < length h)) as [Hx|Hx].
  - apply edge_old in Hxy; [|done]. pose proof (h_closed x y Hxy). lia.
  - destruct Hxy as (nd & Hnd & Hy).
    destruct (news_staged x nd y Hnd ltac:(lia) Hy) as [?|(ny & Hny & _)]; [lia|].
    apply lookup_lt_Some in Hny. by rewrite length_app in Hny.
Qed.

End Extension.

(** ** Ordered histories *)

Lemma ordered_mono (known known' : list NodeId) (evs : list Event) :
  known ⊆ known' -> ordered known evs -> ordered known' evs.
Proof.
  revert known known'. induction evs as [|[id|src dst] evs IH];
    intros known known' Hsub; simpl; [done| |].
  - apply IH. intros x Hx. apply elem_of_cons in Hx as [->|Hx].
    + apply list_elem_of_here.
    + apply list_elem_of_further. by apply Hsub.
  - intros [Hdst Hrest]. split; [by apply Hsub|by eapply IH].
Qed.

Lemma ordered_app (known : list NodeId) (evs1 evs2 : list Event) :
  ordered known evs1 ->
  ordered (newIds evs1 ++ known) evs2 ->
  ordered known (evs1 ++ evs2).
Proof.
  revert known. induction evs1 as [|[id|src dst] evs1 IH];
    intros known; simpl; [done| |].
  - intros H1 H2. apply IH; [done|].
    eapply ordered_mono; [|exact H2].
    intros x Hx. rewrite elem_of_app, elem_of_cons.
    apply elem_of_cons in Hx as [->|Hx]; [by right; left|].
    apply elem_of_app in Hx as [?|?]; [by left|by right; right].
  - intros [Hdst H1] H2. split; [done|by apply IH].
Qed.

Lemma ordered_edges (known ins : list NodeId) (src : NodeId) :
  ins ⊆ known -> ordered known (map (EvEdge src) ins).
Proof.
  induction ins as [|i ins IH]; intros Hsub; simpl; [done|].
  split.
  - apply Hsub, list_elem_of_here.
  - apply IH. intros x Hx. by apply Hsub, list_elem_of_further.
Qed.

(** In an ordered history each edge goes to an identity given at the
    start or constructed before the edge was added. *)
Lemma ordered_edge_target (known : list NodeId) (evs pre post : list Event)
    (src dst : NodeId) :
  ordered known evs ->
  evs = pre ++ EvEdge src dst :: post ->
  dst ∈ known \/ dst ∈ newIds pre.
Proof.
  intros Hord ->. revert known Hord.
  induction pre as [|[id|s d] pre IH]; intros known; simpl.
  - intros [? _]. by left.
  - intros Hord. destruct (IH _ Hord) as [Hin|Hin].
    + apply elem_of_cons in Hin as [->|Hin]; [right|by left].
      apply list_elem_of_here.
    + right. by apply list_elem_of_further.
  - intros [_ Hord]. by apply IH.
Qed.

Lemma newIds_app (evs1 evs2 : list Event) :
  newIds (evs1 ++ evs2) = newIds evs1 ++ newIds evs2.
Proof.
  induction evs1 as [|[id|s d] evs1 IH]; simpl; [done| |done].
  by rewrite IH.
Qed.

Lemma newIds_edges (src : NodeId) (ins : list NodeId) :
  newIds (map (EvEdge src) ins) = [].
Proof. by induction ins. Qed.

Ltac norm_store :=
  repeat (rewrite ?length_app, <- ?app_assoc, <- ?Nat.add_assoc,
            ?alter_app_length, ?alter_app_r;
          unfold addInputs, setInputPath;
          cbn [length app alter list_alter map kind inputs nodes history
               Nat.add]).

Section BuildFacts.
Context (E : Env).

Lemma buildCommand_spec (meta : Options) (toolchain lint unitTests : NodeId)
    (outputs : list NodeId) (cmd : string) (g : Graph) :
  let b := length (nodes g) in
  buildCommand E meta toolchain lint unitTests outputs cmd g =
  (outputs ++ [b; b + 1],
   mkGraph (nodes g ++ commandNodes E toolchain lint unitTests b cmd)
     (history g ++ commandEvents toolchain lint unitTests b)).
Proof.
  destruct g as [h ev]. cbn [nodes history].
  unfold buildCommand, wrap_Drone, bbind, bret, golang_NewBuild,
    common_NewImage, common_NewFHS, common_NewCACerts, newNode, AddInput.
  cbn [nodes history]. norm_store.
  reflexivity.
Qed.

Lemma buildCommands_spec (meta : Options) (toolchain lint unitTests : NodeId)
    (cmds : list string) (outputs : list NodeId) (g : Graph) :
  let b := length (nodes g) in
  buildCommands E meta toolchain lint unitTests outputs cmds g =
  (outputs ++ commandsOutputs b cmds,
   mkGraph (nodes g ++ commandsNodes E toolchain lint unitTests b cmds)
     (history g ++ commandsEvents toolchain lint unitTests b cmds)).
Proof.
  revert outputs g. induction cmds as [|cmd rest IH]; intros outputs g b.
  - simpl. unfold bret. destruct g. by rewrite !app_nil_r.
  - cbn [buildCommands]. unfold bbind. rewrite buildCommand_spec.
    rewrite IH. cbn [nodes history commandsNodes commandsEvents commandsOutputs].
    rewrite length_app. cbn [length commandNodes]. fold b.
    by rewrite <- !app_assoc.
Qed.

(** The outcome of [BuildGolang], written out. *)
Lemma BuildGolang_spec (meta : Options) (inputs : list NodeId) (g : Graph) :
  let n := length (nodes g) in
  BuildGolang E meta inputs g =
  (([n + 3; n + 4; n + 5] ++ commandsOutputs (n + 6) (Commands meta), None),
   mkGraph (nodes g ++ builtNodes E n inputs (Commands meta))
     (history g ++ builtEvents n inputs (Commands meta))).
Proof.
  destruct g as [h ev]. cbn [nodes history].
  unfold BuildGolang. unfold bbind at 1 2 3 4 5 6 7 8 9 10 11 12.
  unfold golang_NewToolchain, golang_NewGolangciLint, golang_NewGofumpt,
    common_NewLint, golang_NewUnitTests, service_NewCodeCov, newNode,
    AddInput, SetInputPath.
  cbn [nodes history]. norm_store.
  unfold bbind, bret. rewrite buildCommands_spec.
  cbn [nodes history]. norm_store.
  unfold builtNodes, builtEvents, baseNodes, baseEvents.
  cbn [app]. rewrite <- ?app_assoc. cbn [app]. reflexivity.
Qed.

Lemma commandsNodes_length (toolchain lint unitTests b : NodeId)
    (cmds : list string) :
  length (commandsNodes E toolchain lint unitTests b cmds) = 5 * length cmds.
Proof.
  revert b. induction cmds as [|c rest IH]; intros b; [done|].
  cbn [commandsNodes]. rewrite length_app, IH. simpl. lia.
Qed.

Lemma commandsNodes_lookup (toolchain lint unitTests : NodeId)
    (cmds : list string) (b k j : nat) (c : string) :
  cmds !! k = Some c -> j < 5 ->
  commandsNodes E toolchain lint unitTests b cmds !! (5 * k + j) =
  commandNodes E toolchain lint unitTests (b + 5 * k) c !! j.
Proof.
  revert b k. induction cmds as [|c' rest IH]; intros b k Hk Hj; [done|].
  cbn [commandsNodes]. destruct k as [|k].
  - injection Hk as ->. rewrite lookup_app_l by (simpl; lia).
    by rewrite Nat.add_0_r.
  - rewrite lookup_app_r by (simpl; lia).
    replace (5 * S k + j - length (commandNodes E toolchain lint unitTests b c'))
      with (5 * k + j) by (simpl; lia).
    rewrite (IH (b + 5) k Hk Hj). f_equal. f_equal. lia.
Qed.

Lemma commandsNodes_lookup_inv (toolchain lint unitTests : NodeId)
    (cmds : list string) (b i : nat) (nd : Node) :
  commandsNodes E toolchain lint unitTests b cmds !! i = Some nd ->
  exists k c j,
    cmds !! k = Some c /\ j < 5 /\ i = 5 * k + j /\
    commandNodes E toolchain lint unitTests (b + 5 * k) c !! j = Some nd.
Proof.
  revert b i. induction cmds as [|c rest IH]; intros b i Hi; [done|].
  cbn [commandsNodes] in Hi. destruct (decide (i < 5)) as [Hlt|Hge].
  - rewrite lookup_app_l in Hi by (simpl; lia).
    exists 0, c, i. rewrite Nat.add_0_r. repeat split; auto.
  - rewrite lookup_app_r in Hi by (simpl; lia).
    apply IH in Hi as (k & c' & j & Hk & Hj & Hi & Hnd).
    exists (S k), c', j. repeat split; auto.
    + simpl in Hi. lia.
    + replace (b + 5 * S k) with (b + 5 + 5 * k) by lia. exact Hnd.
Qed.

Lemma built_lookup_base (h : list Node) (inputs : list NodeId)
    (cmds : list string) (i j : nat) :
  i = length h + j -> j < 6 ->
  (h ++ builtNodes E (length h) inputs cmds) !! i =
  baseNodes (length h) inputs !! j.
Proof.
  intros -> Hj. rewrite lookup_app_r by lia.
  replace (length h + j - length h) with j by lia.
  unfold builtNodes. by rewrite lookup_app_l by (simpl; lia).
Qed.

Lemma built_lookup_command (h : list Node) (inputs : list NodeId)
    (cmds : list string) (i k j : nat) (c : string) :
  cmds !! k = Some c -> j < 5 -> i = length h + 6 + 5 * k + j ->
  (h ++ builtNodes E (length h) inputs cmds) !! i =
  commandNodes E (length h) (length h + 3) (length h + 4)
    (length h + 6 + 5 * k) c !! j.
Proof.
  intros Hk Hj ->. rewrite lookup_app_r by lia.
  unfold builtNodes. rewrite lookup_app_r by (simpl; lia).
  replace (length h + 6 + 5 * k + j - length h
           - length (baseNodes (length h) inputs))
    with (5 * k + j) by (simpl; lia).
  by apply commandsNodes_lookup.
Qed.

(** A node of the built part is one of the six fixed nodes or one of the
    five nodes of some command. *)
Lemma built_lookup_inv (h : list Node) (inputs : list NodeId)
    (cmds : list string) (x : nat) (nd : Node) :
  let n := length h in
  (h ++ builtNodes E n inputs cmds) !! x = Some nd -> n <= x ->
  (exists j, j < 6 /\ x = n + j /\ baseNodes n inputs !! j = Some nd) \/
  (exists k c j,
      cmds !! k = Some c /\ j < 5 /\ x = n + 6 + 5 * k + j /\
      commandNodes E n (n + 3) (n + 4) (n + 6 + 5 * k) c !! j = Some nd).
Proof.
  intros n Hx Hn. rewrite lookup_app_r in Hx by done.
  unfold builtNodes in Hx. fold n in Hx.
  destruct (decide (x - n < 6)) as [Hlt|Hge].
  - rewrite lookup_app_l in Hx by (simpl; lia).
    left. exists (x - n). repeat split; [done|lia|done].
  - rewrite lookup_app_r in Hx by (simpl; lia).
    apply commandsNodes_lookup_inv in Hx as (k & c & j & Hk & Hj & Hi & Hnd).
    right. exists k, c, j. simpl in Hi. repeat split; [done|done|lia|done].
Qed.

(** Every edge that leaves a built node goes to one of the upstream
    nodes handed in or to a built node of a strictly earlier stage. *)
Lemma built_edges_staged (h : list Node) (ups : list NodeId)
    (cmds : list string) (x y : NodeId) (nd : Node) :
  (h ++ builtNodes E (length h) ups cmds) !! x = Some nd ->
  length h <= x ->
  y ∈ inputs nd ->
  y ∈ ups \/
  exists ny,
    (h ++ builtNodes E (length h) ups cmds) !! y = Some ny /\
    length h <= y /\ stage (kind ny) < stage (kind nd).
Proof.
  intros Hx Hn Hy.
  apply built_lookup_inv in Hx as
    [(j & Hj & -> & Hnd)|(k & c & j & Hk & Hj & -> & Hnd)]; [| |done].
  - destruct j as [|[|[|[|[|[|]]]]]]; try lia;
      injection Hnd as <-; cbn [inputs kind] in *;
      set_unfold in Hy; destruct_or?; try done; try (by left);
      subst y; right; eexists;
      (first [ rewrite (built_lookup_base h ups cmds _ 0) by lia
             | rewrite (built_lookup_base h ups cmds _ 1) by lia
             | rewrite (built_lookup_base h ups cmds _ 2) by lia
             | rewrite (built_lookup_base h ups cmds _ 4) by lia ]);
      simpl; repeat split; simpl; lia.
  - destruct j as [|[|[|[|[|]]]]]; try lia;
      injection Hnd as <-; cbn [inputs kind] in *;
      set_unfold in Hy; destruct_or?; try done;
      subst y; right; eexists;
      (first [ rewrite (built_lookup_base h ups cmds _ 0) by lia
             | rewrite (built_lookup_base h ups cmds _ 3) by lia
             | rewrite (built_lookup_base h ups cmds _ 4) by lia
             | rewrite (built_lookup_command h ups cmds _ k 0 c Hk) by lia
             | rewrite (built_lookup_command h ups cmds _ k 2 c Hk) by lia
             | rewrite (built_lookup_command h ups cmds _ k 3 c Hk) by lia
             | rewrite (built_lookup_command h ups cmds _ k 4 c Hk) by lia ]);
      simpl; repeat split; simpl; lia.
Qed.

Lemma commandsEvents_ordered (toolchain lint unitTests : NodeId)
    (cmds : list string) (b : NodeId) (known : list NodeId) :
  toolchain ∈ known -> lint ∈ known -> unitTests ∈ known ->
  ordered known (commandsEvents toolchain lint unitTests b cmds).
Proof.
  revert b known. induction cmds as [|c rest IH]; intros b known Ht Hl Hu;
    [done|].
  cbn [commandsEvents commandEvents app ordered].
  repeat split; try (apply IH); set_solver.
Qed.

Lemma builtEvents_ordered (n : nat) (ups : list NodeId) (cmds : list string) :
  ordered ups (builtEvents n ups cmds).
Proof.
  unfold builtEvents, baseEvents. cbn [app ordered].
  rewrite <- app_assoc. apply ordered_app.
  { apply ordered_edges. set_solver. }
  rewrite newIds_edges. cbn [app ordered].
  repeat split; try (apply commandsEvents_ordered); set_solver.
Qed.

Lemma commandsEvents_newIds (toolchain lint unitTests : NodeId)
    (cmds : list string) (b : NodeId) :
  newIds (commandsEvents toolchain lint unitTests b cmds) =
  seq b (5 * length cmds).
Proof.
  revert b. induction cmds as [|c rest IH]; intros b; [done|].
  cbn [commandsEvents commandEvents app newIds length].
  replace (5 * S (length rest)) with (5 + 5 * length rest) by lia.
  rewrite seq_app, IH. cbn [seq app].
  rewrite !Nat.add_succ_r, Nat.add_0_r. reflexivity.
Qed.

Lemma builtEvents_newIds (n : nat) (ups : list NodeId) (cmds : list string) :
  newIds (builtEvents n ups cmds) = seq n (6 + 5 * length cmds).
Proof.
  unfold builtEvents, baseEvents. cbn [app newIds].
  rewrite <- app_assoc, newIds_app, newIds_edges. cbn [app newIds].
  rewrite commandsEvents_newIds, seq_app. cbn [seq app].
  rewrite !Nat.add_succ_r, Nat.add_0_r. reflexivity.
Qed.

Lemma commandsOutputs_bounds (cmds : list string) (b x : NodeId) :
  x ∈ commandsOutputs b cmds -> b <= x < b + 5 * length cmds.
Proof.
  revert b. induction cmds as [|c rest IH]; intros b Hx.
  - by apply elem_of_nil in Hx.
  - cbn [commandsOutputs length] in *.
    apply elem_of_cons in Hx as [->|Hx]; [lia|].
    apply elem_of_cons in Hx as [->|Hx]; [lia|].
    apply IH in Hx. lia.
Qed.

Lemma commandsOutputs_NoDup (cmds : list string) (b : NodeId) :
  NoDup (commandsOutputs b cmds).
Proof.
  revert b. induction cmds as [|c rest IH]; intros b; [constructor|].
  cbn [commandsOutputs]. constructor; [|constructor; [|apply IH]].
  - intros Hin. apply elem_of_cons in Hin as [?|Hin]; [lia|].
    apply commandsOutputs_bounds in Hin. lia.
  - intros Hin. apply commandsOutputs_bounds in Hin. lia.
Qed.

Lemma builtNodes_length (n : nat) (ups : list NodeId) (cmds : list string) :
  length (builtNodes E n ups cmds) = 6 + 5 * length cmds.
Proof.
  unfold builtNodes. by rewrite length_app, commandsNodes_length.
Qed.

End BuildFacts.

Lemma lookup_app_plus {A} (l1 l2 : list A) (k : nat) :
  (l1 ++ l2) !! (length l1 + k) = l2 !! k.
Proof.
  rewrite lookup_app_r by lia. f_equal. lia.
Qed.

Lemma idsWhere_app (p : NodeKind -> bool) (start : NodeId) (l1 l2 : list Node) :
  idsWhere p start (l1 ++ l2) =
  idsWhere p start l1 ++ idsWhere p (start + length l1) l2.
Proof.
  revert start. induction l1 as [|nd l1 IH]; intros start; simpl.
  - by rewrite Nat.add_0_r.
  - rewrite IH. replace (S start + length l1) with (start + S (length l1)) by lia.
    by destruct (p (kind nd)).
Qed.

Lemma idsWhere_none (p : NodeKind -> bool) (start : NodeId) (l : list Node) :
  (forall nd, nd ∈ l -> p (kind nd) = false) -> idsWhere p start l = [].
Proof.
  revert start. induction l as [|nd l IH]; intros start Hl; simpl; [done|].
  rewrite (Hl nd) by apply list_elem_of_here.
  apply IH. intros nd' Hnd'. apply Hl. by apply list_elem_of_further.
Qed.

(** An edge relation that only goes to smaller identities has no cycle
    and no dangling input. *)
Lemma decreasing_dag (g : list Node) :
  (forall x y, edge g x y -> y < x) -> acyclic g /\ closed g.
Proof.
  intros Hdec. split.
  - assert (forall x y, tc (edge g) x y -> y < x) as Htc.
    { induction 1 as [x y Hxy|x z y Hxz _ IH].
      - by apply Hdec.
      - apply Hdec in Hxz. lia. }
    intros x Hx. apply Htc in Hx. lia.
  - intros x y Hxy. pose proof (Hdec x y Hxy) as Hlt.
    destruct Hxy as (nd & Hnd & _). apply lookup_lt_Some in Hnd. lia.
Qed.

Lemma upstreamGraph_dag :
  acyclic (nodes upstreamGraph) /\ closed (nodes upstreamGraph).
Proof.
  apply decreasing_dag. intros x y (nd & Hnd & Hy).
  destruct x as [|[|x]]; simpl in Hnd; [| |done];
    injection Hnd as <-; simpl in Hy; set_unfold in Hy; lia.
Qed.

Section BuildTheorems.
Context (E : Env).

Lemma commandsNodes_kinds (toolchain lint unitTests b : NodeId)
    (cmds : list string) (nd : Node) :
  nd ∈ commandsNodes E toolchain lint unitTests b cmds ->
  isToolchain (kind nd) = false /\
  isStaticAnalysis (kind nd) = false /\
  isLint (kind nd) = false.
Proof.
  revert b. induction cmds as [|c rest IH]; intros b Hnd.
  - by apply elem_of_nil in Hnd.
  - cbn [commandsNodes] in Hnd. apply elem_of_app in Hnd as [Hnd|Hnd].
    + unfold commandNodes in Hnd. set_unfold in Hnd.
      destruct_or?; subst; done.
    + by apply (IH (b + 5)).
Qed.

(** C10: [BuildGolang] always returns a nil error and an output list that
    starts with the lint, unit-test and coverage nodes, so the list is
    never empty. *)
Theorem BuildGolang_never_fails (meta : Options) (ups : list NodeId)
    (g : Graph) :
  exists lint unitTests coverage rest g',
    BuildGolang E meta ups g
    = ((lint :: unitTests :: coverage :: rest, None), g') /\
    lint :: unitTests :: coverage :: rest <> [] /\
    kindAt (nodes g') lint = Some Lint /\
    kindAt (nodes g') unitTests = Some UnitTests /\
    kindAt (nodes g') coverage = Some (CodeCov "coverage.txt").
Proof.
  rewrite BuildGolang_spec. cbn [app].
  do 5 eexists. split; [reflexivity|]. split; [done|].
  cbn [nodes]. unfold kindAt.
  rewrite !(built_lookup_base E _ _ _ _ _ eq_refl) by lia.
  done.
Qed.

(** C7: among the nodes one call of [BuildGolang] constructs there is
    exactly one toolchain node, exactly two static-analysis nodes (the
    linter and the formatter) and exactly one lint aggregation node; the
    inputs of the toolchain node are the upstream nodes handed in followed
    by the two static-analysis nodes, and the inputs of the lint node are
    the toolchain node and the two static-analysis nodes. *)
Theorem BuildGolang_toolchain_and_lint (meta : Options) (ups : list NodeId)
    (g : Graph) :
  let n := length (nodes g) in
  let g' := (BuildGolang E meta ups g).2 in
  let constructed := drop n (nodes g') in
  exists toolchain golangciLint gofumpt lint,
    idsWhere isToolchain n constructed = [toolchain] /\
    idsWhere isStaticAnalysis n constructed = [golangciLint; gofumpt] /\
    idsWhere isLint n constructed = [lint] /\
    nodes g' !! toolchain
    = Some (mkNode Toolchain (ups ++ [golangciLint; gofumpt])) /\
    nodes g' !! golangciLint = Some (mkNode GolangciLint []) /\
    nodes g' !! gofumpt = Some (mkNode Gofumpt []) /\
    nodes g' !! lint = Some (mkNode Lint [toolchain; golangciLint; gofumpt]).
Proof.
  intros n g' constructed. subst g' constructed n.
  rewrite BuildGolang_spec. cbn [snd nodes].
  rewrite drop_app_length. set (n := length (nodes g)).
  exists n, (n + 1), (n + 2), (n + 3).
  assert (forall p,
    (forall nd, nd ∈ commandsNodes E n (n + 3) (n + 4) (n + 6) (Commands meta) ->
                p (kind nd) = false) ->
    idsWhere p n (builtNodes E n ups (Commands meta))
    = idsWhere p n (baseNodes n ups)) as Hids.
  { intros p Hp. unfold builtNodes.
    by rewrite idsWhere_app, (idsWhere_none p _ _ Hp), app_nil_r. }
  rewrite !Hids
    by (intros nd Hnd; by apply commandsNodes_kinds in Hnd as (? & ? & ?)).
  cbn [idsWhere baseNodes kind isToolchain isStaticAnalysis isLint].
  unfold n.
  rewrite (built_lookup_base E _ _ _ _ 0) by lia.
  rewrite (built_lookup_base E _ _ _ _ 1) by lia.
  rewrite (built_lookup_base E _ _ _ _ 2) by lia.
  rewrite (built_lookup_base E _ _ _ _ 3) by lia.
  cbn [baseNodes lookup list_lookup].
  repeat split; try reflexivity; repeat (f_equal; try lia).
Qed.

End BuildTheorems.

Section BuildCommands.
Context (E : Env).

(** C2: with [Commands = ["a"; "b"]], whatever the upstream nodes are,
    [BuildGolang] returns the lint, unit-test and coverage nodes followed
    by the compile node and the image node of "a" and then those of "b",
    eight distinct nodes with the toolchain; each compile node has the
    toolchain node as its only input, and each image node has among its
    inputs the compile node of its own command and the one lint node. *)
Theorem BuildGolang_two_commands (meta : Options) (ups : list NodeId)
    (g : Graph) :
  Commands meta = ["a"; "b"] ->
  exists toolchain lint unitTests coverage buildA imageA buildB imageB g',
    BuildGolang E meta ups g
    = (([lint; unitTests; coverage; buildA; imageA; buildB; imageB], None),
       g') /\
    NoDup [toolchain; lint; unitTests; coverage;
           buildA; imageA; buildB; imageB] /\
    kindAt (nodes g') toolchain = Some Toolchain /\
    kindAt (nodes g') lint = Some Lint /\
    kindAt (nodes g') unitTests = Some UnitTests /\
    kindAt (nodes g') coverage = Some (CodeCov "coverage.txt") /\
    nodes g' !! buildA
    = Some (mkNode (Build "a" (filepath_Join E "cmd" "a")) [toolchain]) /\
    nodes g' !! buildB
    = Some (mkNode (Build "b" (filepath_Join E "cmd" "b")) [toolchain]) /\
    kindAt (nodes g') imageA = Some (Image "a") /\
    buildA ∈ inputsAt (nodes g') imageA /\
    lint ∈ inputsAt (nodes g') imageA /\
    kindAt (nodes g') imageB = Some (Image "b") /\
    buildB ∈ inputsAt (nodes g') imageB /\
    lint ∈ inputsAt (nodes g') imageB.
Proof.
  intros Hcmds. rewrite BuildGolang_spec, Hcmds.
  destruct g as [h ev]. cbn [nodes history].
  exists (length h), (length h + 3), (length h + 4), (length h + 5),
    (length h + 6), (length h + 7), (length h + 11), (length h + 12).
  eexists. split.
  { cbn [commandsOutputs app]. repeat (f_equal; try lia). }
  split.
  { repeat (apply NoDup_cons; split; [set_unfold; lia|]). apply NoDup_nil_2. }
  cbn [nodes]. unfold kindAt, inputsAt.
  rewrite (built_lookup_base E h ups _ (length h) 0) by lia.
  rewrite (built_lookup_base E h ups _ (length h + 3) 3) by lia.
  rewrite (built_lookup_base E h ups _ (length h + 4) 4) by lia.
  rewrite (built_lookup_base E h ups _ (length h + 5) 5) by lia.
  rewrite (built_lookup_command E h ups ["a"; "b"] (length h + 6) 0 0 "a"
             eq_refl)
    by lia.
  rewrite (built_lookup_command E h ups ["a"; "b"] (length h + 7) 0 1 "a"
             eq_refl)
    by lia.
  rewrite (built_lookup_command E h ups ["a"; "b"] (length h + 11) 1 0 "b"
             eq_refl)
    by lia.
  rewrite (built_lookup_command E h ups ["a"; "b"] (length h + 12) 1 1 "b"
             eq_refl)
    by lia.
  cbn.
  repeat split; try reflexivity; set_unfold; lia.
Qed.

End BuildCommands.

Lemma BuildGolang_two_commands_witness :
  exists outputs g',
    BuildGolang (treeEnv appTree) (appendCommands ["a"; "b"] emptyOptions)
      [0; 1] upstreamGraph
    = ((outputs, None), g') /\
    length outputs = 7.
Proof.
  destruct (BuildGolang_two_commands (treeEnv appTree)
              (appendCommands ["a"; "b"] emptyOptions) [0; 1] upstreamGraph
              eq_refl)
    as (t & l & u & c & ba & ia & bb & ib & g' & Hrun & _).
  exists [l; u; c; ba; ia; bb; ib], g'. split; [exact Hrun|reflexivity].
Defined.

Section BuildDag.
Context (E : Env).

(** C6: when the upstream store is acyclic and closed and the upstream
    nodes handed in belong to it, the store [BuildGolang] leaves is
    acyclic and closed too, so the returned nodes and everything
    reachable from them through inputs form a finite graph without
    cycles; the upstream nodes are left as they were; the returned nodes
    are distinct and newly constructed; the identities constructed are
    distinct and were not in use; and every edge added goes to an
    upstream node handed in or to a node constructed earlier in the same
    call. *)
Theorem BuildGolang_dag (meta : Options) (ups : list NodeId) (g : Graph) :
  acyclic (nodes g) ->
  closed (nodes g) ->
  Forall (fun i => i < length (nodes g)) ups ->
  exists outputs g' added,
    BuildGolang E meta ups g = ((outputs, None), g') /\
    acyclic (nodes g') /\
    closed (nodes g') /\
    (forall x, x < length (nodes g) -> nodes g' !! x = nodes g !! x) /\
    NoDup outputs /\
    (forall x, x ∈ outputs -> length (nodes g) <= x < length (nodes g')) /\
    history g' = history g ++ added /\
    NoDup (newIds added) /\
    (forall id,
        id ∈ newIds added <-> length (nodes g) <= id < length (nodes g')) /\
    (forall pre src dst post,
        added = pre ++ EvEdge src dst :: post ->
        dst ∈ ups \/ dst ∈ newIds pre).
Proof.
  intros Hacyclic Hclosed Hups. rewrite BuildGolang_spec.
  destruct g as [h ev]. cbn [nodes history] in *.
  do 3 eexists. split; [reflexivity|]. cbn [nodes history].
  assert (forall x nd y,
    (h ++ builtNodes E (length h) ups (Commands meta)) !! x = Some nd ->
    length h <= x -> y ∈ inputs nd ->
    y < length h \/
    exists ny,
      (h ++ builtNodes E (length h) ups (Commands meta)) !! y = Some ny /\
      stage (kind ny) < stage (kind nd)) as Hstaged.
  { intros x nd y Hx Hn Hy.
    destruct (built_edges_staged E h ups (Commands meta) x y nd Hx Hn Hy)
      as [Hin|(ny & Hny & _ & Hlt)].
    - left. rewrite Forall_forall in Hups. by apply Hups.
    - right. by exists ny. }
  rewrite length_app, builtNodes_length.
  split; [by apply extend_acyclic|].
  split; [by apply extend_closed|].
  split; [intros x Hx; by rewrite lookup_app_l|].
  split.
  { cbn [app]. repeat (apply NoDup_cons; split).
    - intros Hin. set_unfold in Hin. destruct Hin as [?|[?|Hin]]; [lia|lia|].
      apply commandsOutputs_bounds in Hin. lia.
    - intros Hin. set_unfold in Hin. destruct Hin as [?|Hin]; [lia|].
      apply commandsOutputs_bounds in Hin. lia.
    - intros Hin. apply commandsOutputs_bounds in Hin. lia.
    - apply commandsOutputs_NoDup. }
  split.
  { intros x Hx. cbn [app] in Hx. set_unfold in Hx.
    destruct Hx as [?|[?|[?|Hx]]]; [lia|lia|lia|].
    apply commandsOutputs_bounds in Hx. lia. }
  split; [reflexivity|].
  rewrite builtEvents_newIds.
  split; [apply NoDup_seq|].
  split.
  { intros id. rewrite elem_of_seq. lia. }
  intros pre src dst post Hadded.
  apply (ordered_edge_target ups _ pre post src dst
           (builtEvents_ordered (length h) ups (Commands meta)) Hadded).
Qed.

End BuildDag.

Lemma BuildGolang_dag_witness :
  exists outputs g',
    BuildGolang (treeEnv appTree) (appendCommands ["server"] emptyOptions)
      [0; 1] upstreamGraph
    = ((outputs, None), g') /\
    acyclic (nodes g') /\ NoDup outputs.
Proof.
  destruct (BuildGolang_dag (treeEnv appTree)
              (appendCommands ["server"] emptyOptions) [0; 1] upstreamGraph
              (proj1 upstreamGraph_dag) (proj2 upstreamGraph_dag))
    as (outputs & g' & added & Hrun & Hacyclic & _ & _ & Hnodup & _).
  { repeat constructor. }
  exists outputs, g'. split; [exact Hrun|]. split; [exact Hacyclic|exact Hnodup].
Defined.

(** * Worked examples *)

(** The project of [appTree]: both version packages exist and the later
    candidate is the one recorded; "tools" holds Go code but is not a
    source root, because conventional directories exist. *)
Example DetectGolang_appTree :
  DetectGolang (treeEnv appTree) "/app" emptyOptions
  = (true, None,
     mkOptions "example.org/app"
       ["internal"; "pkg"; "cmd"] ["internal"; "pkg"; "cmd"]
       ["main.go"; "go.mod"; "go.sum"] ["main.go"]
       "example.org/app/internal/version" ["server"]).
Proof. reflexivity. Qed.

(** Without conventional directories the fallback scan picks the
    top-level directories that hold Go files. *)
Example DetectGolang_flatTree :
  DetectGolang (treeEnv flatTree) "/flat" emptyOptions
  = (true, None,
     mkOptions "example.org/flat" ["lib"] ["lib"]
       ["go.mod"; "go.sum"] [] "" []).
Proof. reflexivity. Qed.

(** On a descriptor whose [GoDirectories] is already filled the fallback
    scan is skipped even though no conventional directory exists. *)
Example DetectGolang_flatTree_again :
  Directories
    (DetectGolang (treeEnv flatTree) "/flat"
       (DetectGolang (treeEnv flatTree) "/flat" emptyOptions).2).2
  = ["lib"].
Proof. reflexivity. Qed.

(** One command on top of two upstream nodes. *)
Example BuildGolang_server :
  BuildGolang (treeEnv appTree) (appendCommands ["server"] emptyOptions)
    [0; 1] upstreamGraph
  = (([5; 6; 7; 8; 9], None),
     mkGraph
       [ mkNode (Upstream "checkout") [];
         mkNode (Upstream "setup") [0];
         mkNode Toolchain [0; 1; 3; 4];
         mkNode GolangciLint [];
         mkNode Gofumpt [];
         mkNode Lint [2; 3; 4];
         mkNode UnitTests [2];
         mkNode (CodeCov "coverage.txt") [6];
         mkNode (Build "server" "cmd/server") [2];
         mkNode (Image "server") [8; 10; 11; 5; 12];
         mkNode FHS [];
         mkNode CACerts [];
         mkNode Drone [6] ]
       [ EvNew 2; EvEdge 2 0; EvEdge 2 1; EvNew 3; EvNew 4;
         EvEdge 2 3; EvEdge 2 4; EvNew 5; EvEdge 5 2; EvEdge 5 3;
         EvEdge 5 4; EvNew 6; EvEdge 6 2; EvNew 7; EvEdge 7 6;
         EvNew 8; EvEdge 8 2; EvNew 9; EvNew 10; EvNew 11; EvNew 12;
         EvEdge 12 6; EvEdge 9 8; EvEdge 9 10; EvEdge 9 11; EvEdge 9 5;
         EvEdge 9 12 ]).
Proof. reflexivity. Qed.

(** * Further properties of the detector *)

Lemma anyGoFile_true_iff (contents : list FileInfo) :
  anyGoFile contents = true <->
  exists item,
    item ∈ contents /\ IsDir item = false /\
    strings_HasSuffix (Name item) ".go" = true.
Proof.
  induction contents as [|x rest IH]; simpl.
  - split; [discriminate|]. intros (item & Hin & _). by apply elem_of_nil in Hin.
  - unfold isGoFile at 1. split.
    + destruct (negb (IsDir x) && strings_HasSuffix (Name x) ".go") eqn:Hx.
      * intros _. apply andb_true_iff in Hx as [Hd Hs].
        exists x. split; [apply list_elem_of_here|].
        split; [by apply negb_true_iff|done].
      * intros H. apply IH in H as (item & Hin & Hd & Hs).
        exists item. split; [by apply list_elem_of_further|done].
    + intros (item & Hin & Hd & Hs).
      apply elem_of_cons in Hin as [<-|Hin].
      * by rewrite Hd, Hs.
      * destruct (negb (IsDir x) && strings_HasSuffix (Name x) ".go");
          [done|]. apply IH. by exists item.
Qed.

Lemma anyGoFile_false_filter (contents : list FileInfo) :
  anyGoFile contents = false -> List.filter isGoFile contents = [].
Proof.
  induction contents as [|x rest IH]; simpl; [done|].
  destruct (isGoFile x); [discriminate|]. exact IH.
Qed.

(** X1: [hasGoFiles] answers [true] exactly when the listing of the
    directory holds an entry that is not a directory and whose name ends
    in ".go", and it fails exactly when the listing fails, with the same
    error. *)
Theorem hasGoFiles_spec (E : Env) (path : string) :
  (hasGoFiles E path = inr true <->
   exists contents item,
     ioutil_ReadDir E path = inr contents /\
     item ∈ contents /\ IsDir item = false /\
     strings_HasSuffix (Name item) ".go" = true) /\
  (forall err,
     hasGoFiles E path = inl err <-> ioutil_ReadDir E path = inl err).
Proof.
  unfold hasGoFiles. destruct (ioutil_ReadDir E path) as [e|contents].
  - split.
    + split; [discriminate|]. intros (? & ? & [=] & _).
    + intros err. split; intros [= <-]; reflexivity.
  - split.
    + split.
      * intros [= H]. apply anyGoFile_true_iff in H as (item & H).
        by exists contents, item.
      * intros (contents' & item & [= <-] & H). f_equal.
        apply anyGoFile_true_iff. by exists item.
    + intros err. split; discriminate.
Qed.

(** X2: in a successful run that starts with an empty [GoDirectories]
    and finds none of the conventional directories, the names appended to
    [Directories] and [GoDirectories] are those of the top-level
    directories that directly hold a Go file, in listing order; top-level
    files are skipped. *)
Theorem DetectGolang_fallback (E : Env) (rootPath : string)
    (options options' : Options) :
  DetectGolang E rootPath options = (true, None, options') ->
  GoDirectories options = [] ->
  List.filter (dirExists E rootPath) sourceDirNames = [] ->
  exists topLevel,
    ioutil_ReadDir E rootPath = inr topLevel /\
    let picked :=
      map Name
        (List.filter
           (fun item =>
              IsDir item &&
              match hasGoFiles E (filepath_Join E rootPath (Name item)) with
              | inr true => true
              | _ => false
              end)
           topLevel) in
    Directories options' = Directories options ++ picked /\
    GoDirectories options' = picked.
Proof.
  intros Hrun Hgo Hnone.
  apply DetectGolang_ok_inv in Hrun
    as (gomod & contents & ds & fb & fs & vs & cs
        & Hopen & Hread & Hds & Hfb & Hfs & Hvs & Hcs & ->).
  apply conventionalDirs_found in Hds. rewrite Hnone in Hds. subst ds.
  rewrite detected_Directories, detected_GoDirectories, Hgo. simpl.
  unfold fallbackOutcome in Hfb. simpl in Hfb. rewrite Hgo in Hfb.
  simpl in Hfb. unfold fallbackDirs in Hfb.
  destruct (ioutil_ReadDir E rootPath) as [e|topLevel]; [discriminate|].
  exists topLevel. split; [reflexivity|].
  destruct (selectM (fallbackTest E rootPath) topLevel) as [e|l] eqn:Hsel;
    [discriminate|].
  injection Hfb as <-. apply selectM_filter in Hsel. subst l.
  assert (List.filter
            (fun x => match fallbackTest E rootPath x with
                      | inr true => true
                      | _ => false
                      end) topLevel
          = List.filter
              (fun item =>
                 IsDir item &&
                 match hasGoFiles E (filepath_Join E rootPath (Name item)) with
                 | inr true => true
                 | _ => false
                 end) topLevel) as ->.
  { apply List.filter_ext. intros item. unfold fallbackTest.
    by destruct (IsDir item). }
  done.
Qed.

Lemma DetectGolang_fallback_witness :
  Directories (DetectGolang (treeEnv flatTree) "/flat" emptyOptions).2
  = ["lib"].
Proof.
  destruct (DetectGolang_fallback (treeEnv flatTree) "/flat" emptyOptions
              (DetectGolang (treeEnv flatTree) "/flat" emptyOptions).2
              eq_refl eq_refl eq_refl)
    as (topLevel & Hlist & Hd & _).
  injection Hlist as <-. exact Hd.
Defined.

(** X3: in a successful run the names appended to [GoSourceFiles] are
    those of the entries of the root listing that are not directories and
    end in ".go", in listing order; [SourceFiles] gets the same names
    followed by "go.mod" and "go.sum", the latter whether or not such a
    file exists. *)
Theorem DetectGolang_root_files (E : Env) (rootPath : string)
    (options options' : Options) :
  DetectGolang E rootPath options = (true, None, options') ->
  exists contents,
    ioutil_ReadDir E rootPath = inr contents /\
    let goFiles := map Name (List.filter isGoFile contents) in
    GoSourceFiles options' = GoSourceFiles options ++ goFiles /\
    SourceFiles options'
    = SourceFiles options ++ goFiles ++ ["go.mod"; "go.sum"].
Proof.
  intros Hrun.
  apply DetectGolang_ok_inv in Hrun
    as (gomod & contents & ds & fb & fs & vs & cs
        & Hopen & Hread & Hds & Hfb & Hfs & Hvs & Hcs & ->).
  rewrite detected_GoSourceFiles, detected_SourceFiles.
  unfold rootGoFiles, hasGoFiles in Hfs.
  destruct (ioutil_ReadDir E rootPath) as [e|listing]; [discriminate|].
  exists listing. split; [reflexivity|]. simpl.
  destruct (anyGoFile listing) eqn:Hany.
  - by injection Hfs as <-.
  - injection Hfs as <-. by rewrite (anyGoFile_false_filter listing Hany).
Qed.

Lemma DetectGolang_root_files_witness :
  SourceFiles (DetectGolang (treeEnv appTree) "/app" usedOptions).2
  = ["package.json"; "main.go"; "go.mod"; "go.sum"].
Proof.
  destruct (DetectGolang_root_files (treeEnv appTree) "/app" usedOptions
              (DetectGolang (treeEnv appTree) "/app" usedOptions).2 eq_refl)
    as (contents & Hlist & _ & Hs).
  injection Hlist as <-. exact Hs.
Defined.

(** X4: in a successful run with a "cmd" directory, the names appended to
    [Commands] are those of the subdirectories of "cmd", in listing
    order, regular files being skipped; without a "cmd" directory
    [Commands] is left as it was. *)
Theorem DetectGolang_commands (E : Env) (rootPath : string)
    (options options' : Options) :
  DetectGolang E rootPath options = (true, None, options') ->
  (dirExists E rootPath "cmd" = true ->
   exists dirs,
     ioutil_ReadDir E (filepath_Join E rootPath "cmd") = inr dirs /\
     Commands options'
     = Commands options ++ map Name (List.filter IsDir dirs)) /\
  (dirExists E rootPath "cmd" = false ->
   Commands options' = Commands options).
Proof.
  intros Hrun.
  apply DetectGolang_ok_inv in Hrun
    as (gomod & contents & ds & fb & fs & vs & cs
        & Hopen & Hread & Hds & Hfb & Hfs & Hvs & Hcs & ->).
  rewrite detected_Commands. split.
  - unfold dirExists, commandNames in *.
    destruct (directoryExists E rootPath "cmd") as [e|[]]; try discriminate.
    intros _.
    destruct (ioutil_ReadDir E _) as [e|dirs]; [discriminate|].
    exists dirs. split; [reflexivity|]. by injection Hcs as <-.
  - intros Hcmd. rewrite (commandNames_no_cmd E rootPath cs Hcs Hcmd).
    by rewrite app_nil_r.
Qed.

Lemma DetectGolang_commands_witness :
  Commands (DetectGolang (treeEnv appTree) "/app" usedOptions).2
  = ["ui"; "server"].
Proof.
  destruct (DetectGolang_commands (treeEnv appTree) "/app" usedOptions
              (DetectGolang (treeEnv appTree) "/app" usedOptions).2 eq_refl)
    as [Hcmd _].
  destruct (Hcmd eq_refl) as (dirs & Hlist & Hc).
  injection Hlist as <-. exact Hc.
Defined.

(** X5: when the manifest can be opened but reading it fails,
    [DetectGolang] returns [true] with the read error, and the descriptor
    is left as it was. *)
Theorem DetectGolang_read_failure (E : Env) (rootPath : string)
    (options : Options) (gomod : File) (err : error) :
  os_Open E (filepath_Join E rootPath "go.mod") = inr gomod ->
  ioutil_ReadAll gomod = inl err ->
  DetectGolang E rootPath options = (true, Some err, options).
Proof.
  intros Hopen Hread. unfold DetectGolang. rewrite Hopen.
  unfold detectOpened. unfold dbind at 1. unfold call at 1.
  by rewrite Hread.
Qed.

Lemma DetectGolang_read_failure_witness :
  DetectGolang (treeEnv dirManifestTree) "/odd" usedOptions
  = (true, Some (ErrOther "is a directory"), usedOptions).
Proof.
  apply (DetectGolang_read_failure (treeEnv dirManifestTree) "/odd"
           usedOptions (mkFile (inl (ErrOther "is a directory"))));
    reflexivity.
Defined.

(** ** What every run keeps, failed or not *)

Section Respects.
Context (R : Options -> Options -> Prop).
Hypothesis R_refl : forall o, R o o.
Hypothesis R_trans : forall o1 o2 o3, R o1 o2 -> R o2 o3 -> R o1 o3.

Lemma respects_dret {A} (a : A) : respects R (dret a).
Proof. intros o. apply R_refl. Qed.

Lemma respects_call {A} (r : error + A) : respects R (call r).
Proof. intros o. apply R_refl. Qed.

Lemma respects_gets {A} (f : Options -> A) : respects R (gets f).
Proof. intros o. apply R_refl. Qed.

Lemma respects_modify (f : Options -> Options) :
  (forall o, R o (f o)) -> respects R (modify f).
Proof. intros Hf o. apply Hf. Qed.

Lemma respects_dbind {A B} (c : Detect A) (k : A -> Detect B) :
  respects R c -> (forall a, respects R (k a)) -> respects R (dbind c k).
Proof.
  intros Hc Hk o. unfold dbind. specialize (Hc o).
  destruct (c o) as [[e|a] o1]; simpl in *; [done|].
  eapply R_trans; [exact Hc|apply Hk].
Qed.

Lemma respects_when (b : bool) (c : Detect unit) :
  respects R c -> respects R (when b c).
Proof. intros Hc. destruct b; [exact Hc|apply respects_dret]. Qed.

Lemma respects_forRange {A} (xs : list A) (body : A -> Detect unit) :
  (forall x, respects R (body x)) -> respects R (forRange xs body).
Proof.
  intros Hbody. induction xs as [|x xs IH]; simpl.
  - apply respects_dret.
  - apply respects_dbind; [apply Hbody|]. intros _. exact IH.
Qed.

Context (E : Env).
Hypothesis R_appendDirectory : forall d o, R o (appendDirectory d o).
Hypothesis R_appendGoSourceFile : forall f o, R o (appendGoSourceFile f o).
Hypothesis R_appendSourceFiles : forall fs o, R o (appendSourceFiles fs o).
Hypothesis R_setVersionPackage : forall v o, R o (setVersionPackage v o).
Hypothesis R_appendCommand : forall c o, R o (appendCommand c o).

Ltac respects_step :=
  first
    [ apply respects_dbind; [|intros ?]
    | apply respects_forRange; intros ?
    | apply respects_when
    | match goal with
      | |- respects _ (if ?b then _ else _) => destruct b
      end
    | apply respects_call
    | apply respects_gets
    | apply respects_dret
    | apply respects_modify; intros ?;
      first [ apply R_appendDirectory | apply R_appendGoSourceFile
            | apply R_appendSourceFiles | apply R_setVersionPackage
            | apply R_appendCommand ] ].

Lemma respects_detectSourceDirs (rootPath : string) :
  respects R (detectSourceDirs E rootPath).
Proof. unfold detectSourceDirs. repeat respects_step. Qed.

Lemma respects_detectFallbackDirs (rootPath : string) :
  respects R (detectFallbackDirs E rootPath).
Proof.
  unfold detectFallbackDirs. repeat respects_step.
Qed.

Lemma respects_detectRootFiles (rootPath : string) :
  respects R (detectRootFiles E rootPath).
Proof. unfold detectRootFiles. repeat respects_step. Qed.

Lemma respects_detectVersionPackage (rootPath : string) :
  respects R (detectVersionPackage E rootPath).
Proof. unfold detectVersionPackage. repeat respects_step. Qed.

Lemma respects_detectCommands (rootPath : string) :
  respects R (detectCommands E rootPath).
Proof. unfold detectCommands. repeat respects_step. Qed.

(** Everything [DetectGolang] runs after it has set [CanonicalPath]. *)
Lemma respects_detection_steps (rootPath : string) :
  respects R
    (do _ <- detectSourceDirs E rootPath;
     do _ <- detectFallbackDirs E rootPath;
     do _ <- detectRootFiles E rootPath;
     do _ <- modify (appendSourceFiles ["go.mod"; "go.sum"]);
     do _ <- detectVersionPackage E rootPath;
     detectCommands E rootPath).
Proof.
  apply respects_dbind; [apply respects_detectSourceDirs|intros _].
  apply respects_dbind; [apply respects_detectFallbackDirs|intros _].
  apply respects_dbind; [apply respects_detectRootFiles|intros _].
  apply respects_dbind;
    [apply respects_modify; intros ?; apply R_appendSourceFiles|intros _].
  apply respects_dbind; [apply respects_detectVersionPackage|intros _].
  apply respects_detectCommands.
Qed.

(** The same for a whole call, when setting [CanonicalPath] is within
    [R] as well. *)
Lemma respects_DetectGolang (rootPath : string) (o : Options) :
  (forall v o, R o (setCanonicalPath v o)) ->
  R o (DetectGolang E rootPath o).2.
Proof.
  intros R_setCanonicalPath. unfold DetectGolang.
  destruct (os_Open E _) as [e|gomod].
  { destruct (os_IsNotExist e); apply R_refl. }
  assert (respects R (detectOpened E gomod rootPath)) as Hopened.
  { unfold detectOpened.
    apply respects_dbind; [apply respects_call|intros contents].
    apply respects_dbind;
      [apply respects_modify; intros ?; apply R_setCanonicalPath|intros _].
    apply respects_detection_steps. }
  specialize (Hopened o).
  by destruct (detectOpened E gomod rootPath o) as [[?|?] ?].
Qed.

End Respects.

Lemma grows_refl (o : Options) : grows o o.
Proof.
  repeat split; try (exists []; by rewrite ?app_nil_r).
Qed.

Lemma grows_trans (o1 o2 o3 : Options) :
  grows o1 o2 -> grows o2 o3 -> grows o1 o3.
Proof.
  intros ((ds & Hd & Hg) & (fs & Hs) & (gs & Hgs) & (cs & Hc))
         ((ds' & Hd' & Hg') & (fs' & Hs') & (gs' & Hgs') & (cs' & Hc')).
  repeat split.
  - exists (ds ++ ds'). by rewrite Hd', Hg', Hd, Hg, <- !app_assoc.
  - exists (fs ++ fs'). by rewrite Hs', Hs, <- app_assoc.
  - exists (gs ++ gs'). by rewrite Hgs', Hgs, <- app_assoc.
  - exists (cs ++ cs'). by rewrite Hc', Hc, <- app_assoc.
Qed.

(** X6: [DetectGolang] only ever appends to the sequences of the
    descriptor, whether the call succeeds, fails or finds the project not
    applicable: [Directories] and [GoDirectories] are extended by the
    same entries, and [SourceFiles], [GoSourceFiles] and [Commands] keep
    what they held as a prefix. *)
Theorem DetectGolang_appends_only (E : Env) (rootPath : string)
    (options : Options) :
  grows options (DetectGolang E rootPath options).2.
Proof.
  apply respects_DetectGolang;
    [ apply grows_refl | apply grows_trans | intros ? o .. ];
    repeat split;
    first [ by (exists []; simpl; rewrite ?app_nil_r)
          | by (eexists; simpl; repeat split) ].
Qed.

(** X7: once the manifest has been read, [CanonicalPath] is the module
    path of its contents at the end of the call, also when a later step
    fails: a failed call leaves the descriptor modified. *)
Theorem DetectGolang_canonical_path (E : Env) (rootPath : string)
    (options : Options) (gomod : File) (contents : string) :
  os_Open E (filepath_Join E rootPath "go.mod") = inr gomod ->
  ioutil_ReadAll gomod = inr contents ->
  CanonicalPath (DetectGolang E rootPath options).2
  = modfile_ModulePath E contents.
Proof.
  intros Hopen Hread. unfold DetectGolang. rewrite Hopen.
  unfold detectOpened. unfold dbind at 1 2. unfold call at 1, modify at 1.
  rewrite Hread.
  pose proof (respects_detection_steps
                (fun o o' => CanonicalPath o' = CanonicalPath o)
                ltac:(done) ltac:(intros ??? H1 H2; simpl in *; congruence)
                E ltac:(done) ltac:(done) ltac:(done) ltac:(done) ltac:(done)
                rootPath
                (setCanonicalPath (modfile_ModulePath E contents) options))
    as Hkeep.
  simpl in Hkeep.
  by destruct (dbind (detectSourceDirs E rootPath) _ _) as [[?|?] ?].
Qed.

Lemma DetectGolang_canonical_path_witness :
  (DetectGolang (treeEnv guardedTree) "/guarded" usedOptions).1
  = (true, Some ErrPermission) /\
  CanonicalPath (DetectGolang (treeEnv guardedTree) "/guarded" usedOptions).2
  = "example.org/guarded".
Proof.
  split; [reflexivity|].
  apply (DetectGolang_canonical_path (treeEnv guardedTree) "/guarded"
           usedOptions (mkFile (inr "module example.org/guarded"))
           "module example.org/guarded"); reflexivity.
Defined.

Lemma forRange_select_error {A} (test : A -> error + bool)
    (upd : A -> Options -> Options) (body : A -> Detect unit) :
  (forall x o,
      body x o = match test x with
                 | inl e => (inl e, o)
                 | inr true => (inr tt, upd x o)
                 | inr false => (inr tt, o)
                 end) ->
  forall (pre : list A) (x : A) (post l : list A) (e : error) (o : Options),
    selectM test pre = inr l ->
    test x = inl e ->
    forRange (pre ++ x :: post) body o
    = (inl e, fold_left (fun o x => upd x o) l o).
Proof.
  intros Hbody pre. induction pre as [|p pre IH];
    intros x post l e o Hpre Hx; simpl in *.
  - injection Hpre as <-. unfold dbind. by rewrite Hbody, Hx.
  - unfold dbind. rewrite Hbody.
    destruct (test p) as [e'|b]; [discriminate|].
    destruct (selectM test pre) as [e'|l'] eqn:Hsel; [discriminate|].
    injection Hpre as <-.
    destruct b; simpl; by apply IH.
Qed.

Lemma selectM_all_ok {A} (test : A -> error + bool) (xs : list A) :
  (forall x, x ∈ xs -> exists b, test x = inr b) ->
  selectM test xs
  = inr (List.filter
           (fun x => match test x with inr true => true | _ => false end) xs).
Proof.
  induction xs as [|x xs IH]; intros Hok; simpl; [done|].
  destruct (Hok x (list_elem_of_here _ _)) as [b Hb]. rewrite Hb.
  rewrite IH by (intros y Hy; apply Hok; by apply list_elem_of_further).
  by destruct b.
Qed.

(** X8: when the existence check of one of the conventional directory
    names fails, after the checks of the names before it went through,
    [DetectGolang] returns [true] with that error at once; the descriptor
    is left with [CanonicalPath] set and with the existing names among
    the earlier ones appended, and nothing else is done. *)
Theorem DetectGolang_probe_failure (E : Env) (rootPath : string)
    (options : Options) (gomod : File) (contents : string)
    (pre post : list string) (d : string) (err : error) :
  os_Open E (filepath_Join E rootPath "go.mod") = inr gomod ->
  ioutil_ReadAll gomod = inr contents ->
  sourceDirNames = pre ++ d :: post ->
  (forall p, p ∈ pre -> exists b, directoryExists E rootPath p = inr b) ->
  directoryExists E rootPath d = inl err ->
  DetectGolang E rootPath options
  = (true, Some err,
     appendDirectories (List.filter (dirExists E rootPath) pre)
       (setCanonicalPath (modfile_ModulePath E contents) options)).
Proof.
  intros Hopen Hread Hnames Hpre Hd. unfold DetectGolang. rewrite Hopen.
  unfold detectOpened. unfold dbind at 1 2 3. unfold call at 1, modify at 1.
  rewrite Hread. unfold detectSourceDirs. rewrite Hnames.
  rewrite (forRange_select_error (directoryExists E rootPath) appendDirectory
             (fun srcDir =>
                do exists_ <- call (directoryExists E rootPath srcDir);
                when exists_ (modify (appendDirectory srcDir)))
             ltac:(intros x o'; unfold dbind, call;
                     destruct (directoryExists E rootPath x) as [e|[]];
                     reflexivity)
             pre d post _ err _ (selectM_all_ok _ pre Hpre) Hd).
  by rewrite fold_appendDirectory.
Qed.

Lemma DetectGolang_probe_failure_witness :
  DetectGolang (treeEnv guardedTree) "/guarded" usedOptions
  = (true, Some ErrPermission,
     mkOptions "example.org/guarded" ["web"; "internal"] ["internal"]
       ["package.json"] [] "old/version" ["ui"]).
Proof.
  apply (DetectGolang_probe_failure (treeEnv guardedTree) "/guarded"
           usedOptions (mkFile (inr "module example.org/guarded"))
           "module example.org/guarded" ["src"; "internal"] ["cmd"] "pkg"
           ErrPermission); try reflexivity.
  intros p Hp. set_unfold in Hp.
  destruct Hp as [->|[->|[]]]; eexists; reflexivity.
Defined.

(** * Further properties of the builder *)

Lemma commandsOutputs_length (cmds : list string) (b : NodeId) :
  length (commandsOutputs b cmds) = 2 * length cmds.
Proof.
  revert b. induction cmds as [|c rest IH]; intros b; [done|].
  cbn [commandsOutputs length]. rewrite IH. lia.
Qed.

Lemma commandsOutputs_lookup (cmds : list string) (b k : nat) (c : string) :
  cmds !! k = Some c ->
  commandsOutputs b cmds !! (2 * k) = Some (b + 5 * k) /\
  commandsOutputs b cmds !! (2 * k + 1) = Some (b + 5 * k + 1).
Proof.
  revert b k. induction cmds as [|c' rest IH]; intros b k Hk; [done|].
  destruct k as [|k]; cbn [commandsOutputs].
  - simpl. by rewrite !Nat.add_0_r.
  - destruct (IH (b + 5) k Hk) as [H1 H2].
    replace (2 * S k) with (S (S (2 * k))) by lia.
    replace (b + 5 * S k) with (b + 5 + 5 * k) by lia.
    simpl. simpl in H1, H2. by rewrite H1, H2.
Qed.

Lemma commandsOutputs_elem (cmds : list string) (b x : NodeId) :
  x ∈ commandsOutputs b cmds ->
  exists k c, cmds !! k = Some c /\ (x = b + 5 * k \/ x = b + 5 * k + 1).
Proof.
  revert b. induction cmds as [|c rest IH]; intros b Hx.
  - by apply elem_of_nil in Hx.
  - cbn [commandsOutputs] in Hx.
    apply elem_of_cons in Hx as [->|Hx]; [exists 0, c; split; [done|lia]|].
    apply elem_of_cons in Hx as [->|Hx]; [exists 0, c; split; [done|lia]|].
    apply IH in Hx as (k & c' & Hk & Hx).
    exists (S k), c'. split; [done|lia].
Qed.

Section BuildFurther.
Context (E : Env).

(** X9: for the [k]-th command of the descriptor, whatever the number of
    commands, the call constructs five nodes of its own, at the
    identities [n + 6 + 5k] to [n + 10 + 5k] of a store that held [n]
    nodes: a compile node for the subdirectory of "cmd" named after the
    command, whose only input is the toolchain; an image node whose
    inputs are, in order, that compile node, an FHS node, a
    CA-certificates node, the lint node and an adapter node made by
    [wrap.Drone]; and these FHS, CA-certificates and adapter nodes. The
    compile and image nodes are the outputs at positions [3 + 2k] and
    [4 + 2k]. The FHS, CA-certificates and adapter nodes belong to this
    command alone: when the upstream nodes handed in are nodes of the
    store, the image node of this command is the only node constructed by
    the call that has one of them among its inputs. *)
Theorem BuildGolang_command (meta : Options) (ups : list NodeId) (g : Graph)
    (k : nat) (c : string) :
  Commands meta !! k = Some c ->
  let n := length (nodes g) in
  let run := BuildGolang E meta ups g in
  let build := n + 6 + 5 * k in
  let image := build + 1 in
  let fhs := build + 2 in
  let cacerts := build + 3 in
  let drone := build + 4 in
  run.1.1 !! (3 + 2 * k) = Some build /\
  run.1.1 !! (4 + 2 * k) = Some image /\
  nodes run.2 !! build
  = Some (mkNode (Build c (filepath_Join E "cmd" c)) [n]) /\
  nodes run.2 !! image
  = Some (mkNode (Image c) [build; fhs; cacerts; n + 3; drone]) /\
  nodes run.2 !! fhs = Some (mkNode FHS []) /\
  nodes run.2 !! cacerts = Some (mkNode CACerts []) /\
  kindAt (nodes run.2) drone = Some Drone /\
  kindAt (nodes run.2) n = Some Toolchain /\
  kindAt (nodes run.2) (n + 3) = Some Lint /\
  (Forall (fun i => i < n) ups ->
   forall x nd y,
     nodes run.2 !! x = Some nd -> n <= x ->
     y ∈ [fhs; cacerts; drone] -> y ∈ inputs nd ->
     x = image).
Proof.
  intros Hk n run build image fhs cacerts drone.
  subst run image fhs cacerts drone. rewrite BuildGolang_spec.
  destruct g as [h ev]. cbn [nodes history fst snd] in *. subst n build.
  set (b := length h + 6 + 5 * k).
  destruct (commandsOutputs_lookup (Commands meta) (length h + 6) k c Hk)
    as [Hout1 Hout2].
  unfold kindAt.
  rewrite (built_lookup_base E h ups _ (length h) 0) by lia.
  rewrite (built_lookup_base E h ups _ (length h + 3) 3) by lia.
  rewrite (built_lookup_command E h ups _ b k 0 c Hk) by (unfold b; lia).
  rewrite (built_lookup_command E h ups _ (b + 1) k 1 c Hk) by (unfold b; lia).
  rewrite (built_lookup_command E h ups _ (b + 2) k 2 c Hk) by (unfold b; lia).
  rewrite (built_lookup_command E h ups _ (b + 3) k 3 c Hk) by (unfold b; lia).
  rewrite (built_lookup_command E h ups _ (b + 4) k 4 c Hk) by (unfold b; lia).
  repeat split; try reflexivity.
  - exact Hout1.
  - replace (4 + 2 * k) with (S (S (S (2 * k + 1)))) by lia. exact Hout2.
  - intros Hups x nd y Hx Hn Hy Hin.
    rewrite Forall_forall in Hups.
    assert (b + 2 <= y <= b + 4) as Hrange by (set_unfold in Hy; lia).
    apply built_lookup_inv in Hx as
      [(j & Hj & -> & Hnd)|(k' & c' & j & Hk' & Hj & -> & Hnd)]; [| |done].
    + exfalso.
      destruct j as [|[|[|[|[|[|]]]]]]; try lia;
        injection Hnd as <-; cbn [inputs] in Hin; set_unfold in Hin;
        destruct_or?; try done; try (unfold b in *; lia).
      match goal with H : y ∈ ups |- _ => pose proof (Hups y H) end.
      unfold b in *. lia.
    + destruct j as [|[|[|[|[|]]]]]; try lia;
        injection Hnd as <-; cbn [inputs] in Hin; set_unfold in Hin;
        destruct_or?; try done; unfold b in *; lia.
Qed.

(** X10: a call constructs six nodes and five more for each command, and
    returns three outputs and two more for each command; with no command
    the outputs are the lint, unit-test and coverage nodes alone. *)
Theorem BuildGolang_counts (meta : Options) (ups : list NodeId) (g : Graph) :
  let run := BuildGolang E meta ups g in
  length (nodes run.2)
  = length (nodes g) + 6 + 5 * length (Commands meta) /\
  length run.1.1 = 3 + 2 * length (Commands meta) /\
  (Commands meta = [] ->
   run.1.1 = [length (nodes g) + 3; length (nodes g) + 4;
              length (nodes g) + 5]).
Proof.
  intros run. subst run. rewrite BuildGolang_spec. cbn [nodes history fst snd].
  rewrite length_app, builtNodes_length.
  cbn [app length]. rewrite commandsOutputs_length.
  repeat split; try lia. by intros ->.
Qed.

(** X11: the unit-test node has the toolchain node as its only input,
    and the coverage node has the unit-test node as its only input and
    reads "coverage.txt". *)
Theorem BuildGolang_tests_and_coverage (meta : Options) (ups : list NodeId)
    (g : Graph) :
  let run := BuildGolang E meta ups g in
  exists toolchain lint unitTests coverage rest,
    run.1.1 = lint :: unitTests :: coverage :: rest /\
    kindAt (nodes run.2) toolchain = Some Toolchain /\
    nodes run.2 !! unitTests = Some (mkNode UnitTests [toolchain]) /\
    nodes run.2 !! coverage
    = Some (mkNode (CodeCov "coverage.txt") [unitTests]).
Proof.
  intros run. subst run. rewrite BuildGolang_spec.
  destruct g as [h ev]. cbn [nodes history fst snd app].
  exists (length h). do 4 eexists. split; [reflexivity|]. unfold kindAt.
  rewrite (built_lookup_base E h ups _ (length h) 0) by lia.
  rewrite (built_lookup_base E h ups _ (length h + 4) 4) by lia.
  rewrite (built_lookup_base E h ups _ (length h + 5) 5) by lia.
  done.
Qed.

End BuildFurther.

Lemma BuildGolang_command_witness :
  (BuildGolang (treeEnv appTree) (appendCommands ["a"; "b"] emptyOptions)
     [0; 1] upstreamGraph).1.1 !! 5 = Some 13 /\
  nodes (BuildGolang (treeEnv appTree)
           (appendCommands ["a"; "b"] emptyOptions) [0; 1] upstreamGraph).2
    !! 14
  = Some (mkNode (Image "b") [13; 15; 16; 5; 17]) /\
  forall x nd,
    nodes (BuildGolang (treeEnv appTree)
             (appendCommands ["a"; "b"] emptyOptions) [0; 1] upstreamGraph).2
      !! x = Some nd ->
    2 <= x -> 15 ∈ inputs nd -> x = 14.
Proof.
  destruct (BuildGolang_command (treeEnv appTree)
              (appendCommands ["a"; "b"] emptyOptions) [0; 1] upstreamGraph
              1 "b" eq_refl)
    as (Hb & _ & _ & Hi & _ & _ & _ & _ & _ & Hown).
  split; [exact Hb|]. split; [exact Hi|].
  intros x nd Hx Hn Hin.
  apply (Hown ltac:(repeat constructor) x nd 15 Hx Hn); [|exact Hin].
  apply list_elem_of_here.
Defined.

Section BuildReach.
Context (E : Env).

(** X12: no node is constructed in vain: every node that a call
    constructs is returned as an output or is a direct input of a
    returned node (the toolchain and the two static-analysis nodes of the
    lint node; the FHS, CA-certificates and adapter nodes of the image
    node of their command). *)
Theorem BuildGolang_no_orphan (meta : Options) (ups : list NodeId)
    (g : Graph) (id : NodeId) :
  let run := BuildGolang E meta ups g in
  length (nodes g) <= id < length (nodes run.2) ->
  id ∈ run.1.1 \/
  exists out, out ∈ run.1.1 /\ edge (nodes run.2) out id.
Proof.
  intros run. subst run. rewrite BuildGolang_spec.
  destruct g as [h ev]. cbn [nodes history fst snd app]. intros [Hlo Hhi].
  destruct (lookup_lt_is_Some_2 _ _ Hhi) as [nd Hnd].
  apply built_lookup_inv in Hnd as
    [(j & Hj & -> & Hnd)|(k & c & j & Hk & Hj & -> & Hnd)]; [| |done].
  - assert (edge (h ++ builtNodes E (length h) ups (Commands meta))
              (length h + 3) (length h + j) \/ 3 <= j) as [Hedge|Hout].
    { destruct (decide (3 <= j)); [by right|left].
      eexists. rewrite (built_lookup_base E h ups _ (length h + 3) 3) by lia.
      split; [reflexivity|]. cbn [inputs].
      destruct j as [|[|[|j]]]; [| | |lia]; set_unfold; lia. }
    + right. exists (length h + 3). split; [apply list_elem_of_here|done].
    + left. destruct j as [|[|[|[|[|[|]]]]]]; try lia; set_unfold; lia.
  - destruct (commandsOutputs_lookup (Commands meta) (length h + 6) k c Hk)
      as [Hout1 Hout2].
    apply list_elem_of_lookup_2 in Hout1, Hout2.
    destruct j as [|[|j]].
    + left. do 3 apply list_elem_of_further.
      by replace (length h + 6 + 5 * k + 0) with (length h + 6 + 5 * k) by lia.
    + left. by do 3 apply list_elem_of_further.
    + right. exists (length h + 6 + 5 * k + 1).
      split; [by do 3 apply list_elem_of_further|].
      eexists.
      rewrite (built_lookup_command E h ups _ _ k 1 c Hk) by lia.
      split; [reflexivity|]. cbn [inputs].
      destruct j as [|[|[|j]]]; [| | |lia]; set_unfold; lia.
Qed.

(** X13: every returned node depends on the toolchain node, directly or
    through other nodes, and so on every upstream node handed in. *)
Theorem BuildGolang_outputs_reach_toolchain (meta : Options)
    (ups : list NodeId) (g : Graph) (out : NodeId) :
  let run := BuildGolang E meta ups g in
  let toolchain := length (nodes g) in
  out ∈ run.1.1 ->
  kindAt (nodes run.2) toolchain = Some Toolchain /\
  tc (edge (nodes run.2)) out toolchain /\
  forall u, u ∈ ups -> tc (edge (nodes run.2)) out u.
Proof.
  intros run toolchain. subst run toolchain. rewrite BuildGolang_spec.
  destruct g as [h ev]. cbn [nodes history fst snd app]. intros Hout.
  set (g' := h ++ builtNodes E (length h) ups (Commands meta)).
  assert (g' !! length h
          = Some (mkNode Toolchain (ups ++ [length h + 1; length h + 2])))
    as Htool.
  { unfold g'. by rewrite (built_lookup_base E h ups _ (length h) 0) by lia. }
  assert (tc (edge g') out (length h)) as Hreach.
  { set_unfold in Hout. destruct Hout as [->|[->|[->|Hout]]].
    - apply tc_once. eexists. unfold g'.
      rewrite (built_lookup_base E h ups _ (length h + 3) 3) by lia.
      split; [reflexivity|]. simpl. set_unfold; lia.
    - apply tc_once. eexists. unfold g'.
      rewrite (built_lookup_base E h ups _ (length h + 4) 4) by lia.
      split; [reflexivity|]. simpl. set_unfold; lia.
    - apply tc_l with (length h + 4); [|apply tc_once]; eexists; unfold g'.
      + rewrite (built_lookup_base E h ups _ (length h + 5) 5) by lia.
        split; [reflexivity|]. simpl. set_unfold; lia.
      + rewrite (built_lookup_base E h ups _ (length h + 4) 4) by lia.
        split; [reflexivity|]. simpl. set_unfold; lia.
    - apply commandsOutputs_elem in Hout as (k & c & Hk & [->| ->]).
      + apply tc_once. eexists. unfold g'.
        rewrite (built_lookup_command E h ups _ _ k 0 c Hk) by lia.
        split; [reflexivity|]. simpl. set_unfold; lia.
      + apply tc_l with (length h + 6 + 5 * k); [|apply tc_once];
          eexists; unfold g'.
        * rewrite (built_lookup_command E h ups _ _ k 1 c Hk) by lia.
          split; [reflexivity|]. simpl. set_unfold; lia.
        * rewrite (built_lookup_command E h ups _ _ k 0 c Hk) by lia.
          split; [reflexivity|]. simpl. set_unfold; lia. }
  split; [unfold kindAt; by rewrite Htool|].
  split; [exact Hreach|].
  intros u Hu. eapply tc_r; [exact Hreach|].
  eexists. split; [exact Htool|]. simpl. apply elem_of_app. by left.
Qed.

End BuildReach.

Lemma BuildGolang_no_orphan_witness :
  10 ∈ (BuildGolang (treeEnv appTree) (appendCommands ["server"] emptyOptions)
          [0; 1] upstreamGraph).1.1 \/
  exists out,
    out ∈ (BuildGolang (treeEnv appTree)
             (appendCommands ["server"] emptyOptions) [0; 1]
             upstreamGraph).1.1 /\
    edge (nodes (BuildGolang (treeEnv appTree)
                   (appendCommands ["server"] emptyOptions) [0; 1]
                   upstreamGraph).2) out 10.
Proof.
  apply (BuildGolang_no_orphan (treeEnv appTree)
           (appendCommands ["server"] emptyOptions) [0; 1] upstreamGraph 10).
  vm_compute. lia.
Defined.

Lemma BuildGolang_outputs_reach_toolchain_witness :
  tc (edge (nodes (BuildGolang (treeEnv appTree)
                     (appendCommands ["server"] emptyOptions) [0; 1]
                     upstreamGraph).2)) 9 1.
Proof.
  apply (BuildGolang_outputs_reach_toolchain (treeEnv appTree)
           (appendCommands ["server"] emptyOptions) [0; 1] upstreamGraph 9).
  - vm_compute. do 4 apply list_elem_of_further. apply list_elem_of_here.
  - apply list_elem_of_further, list_elem_of_here.
Defined.

Section BuildFrame.
Context (E : Env).

(** X14: a call never touches what is already in the store: the nodes
    present before the call keep their kind and their inputs, and the
    call only adds nodes after them; no assumption on the store is
    needed. *)
Theorem BuildGolang_frame (meta : Options) (ups : list NodeId) (g : Graph) :
  let run := BuildGolang E meta ups g in
  nodes g `prefix_of` nodes run.2 /\
  history g `prefix_of` history run.2 /\
  forall x nd, nodes g !! x = Some nd -> nodes run.2 !! x = Some nd.
Proof.
  intros run. subst run. rewrite BuildGolang_spec. cbn [nodes history snd].
  split; [by eexists|]. split; [by eexists|].
  intros x nd Hx. by apply lookup_app_l_Some.
Qed.

(** X15: detection followed by building: after a successful detection
    from the empty descriptor in a project with a "cmd" directory, the
    builder returns three outputs and two more for each subdirectory of
    "cmd", and for the [k]-th subdirectory the output at position
    [3 + 2k] is a compile node named after it, for the source path
    "cmd" joined with its name, with the toolchain as its only input. *)
Theorem DetectGolang_then_BuildGolang (rootPath : string)
    (options' : Options) (dirs : list FileInfo) (ups : list NodeId)
    (g : Graph) :
  DetectGolang E rootPath emptyOptions = (true, None, options') ->
  dirExists E rootPath "cmd" = true ->
  ioutil_ReadDir E (filepath_Join E rootPath "cmd") = inr dirs ->
  let run := BuildGolang E options' ups g in
  length run.1.1 = 3 + 2 * length (List.filter IsDir dirs) /\
  forall k d,
    List.filter IsDir dirs !! k = Some d ->
    exists build,
      run.1.1 !! (3 + 2 * k) = Some build /\
      nodes run.2 !! build
      = Some (mkNode (Build (Name d) (filepath_Join E "cmd" (Name d)))
                [length (nodes g)]).
Proof.
  intros Hrun Hcmd Hdirs run.
  apply DetectGolang_ok_inv in Hrun
    as (gomod & contents & ds & fb & fs & vs & cs
        & Hopen & Hread & Hds & Hfb & Hfs & Hvs & Hcs & ->).
  assert (Commands (detected E contents ds fb fs vs cs emptyOptions)
          = map Name (List.filter IsDir dirs)) as Hcommands.
  { rewrite detected_Commands. simpl.
    unfold dirExists, commandNames in *.
    destruct (directoryExists E rootPath "cmd") as [e|[]]; try discriminate.
    rewrite Hdirs in Hcs. by injection Hcs as <-. }
  subst run. rewrite BuildGolang_spec. rewrite Hcommands.
  destruct g as [h ev]. cbn [nodes history fst snd app]. split.
  - cbn [length]. rewrite commandsOutputs_length, length_map. lia.
  - intros k d Hk.
    assert (map Name (List.filter IsDir dirs) !! k = Some (Name d)) as Hk'.
    { by rewrite list_lookup_fmap, Hk. }
    destruct (commandsOutputs_lookup _ (length h + 6) k _ Hk') as [Hout _].
    exists (length h + 6 + 5 * k). split; [exact Hout|].
    by rewrite (built_lookup_command E h ups _ _ k 0 _ Hk') by lia.
Qed.

End BuildFrame.

Lemma DetectGolang_then_BuildGolang_witness :
  length
    (BuildGolang (treeEnv appTree)
       (DetectGolang (treeEnv appTree) "/app" emptyOptions).2 [0; 1]
       upstreamGraph).1.1
  = 5.
Proof.
  exact (proj1
    (DetectGolang_then_BuildGolang (treeEnv appTree) "/app"
       (DetectGolang (treeEnv appTree) "/app" emptyOptions).2
       [file "README.md"; dir "server"] [0; 1] upstreamGraph
       eq_refl eq_refl eq_refl)).
Defined.

(** * Two calls against the same filesystem *)

Lemma dbind_ext {A B} (c1 c2 : Detect A) (k1 k2 : A -> Detect B)
    (o : Options) :
  c1 o = c2 o ->
  (forall a o', k1 a o' = k2 a o') ->
  dbind c1 k1 o = dbind c2 k2 o.
Proof.
  intros Hc Hk. unfold dbind. rewrite Hc.
  destruct (c2 o) as [[e|a] o']; [reflexivity|apply Hk].
Qed.

Lemma forRange_ext {A} (xs : list A) (body1 body2 : A -> Detect unit) :
  (forall x o, body1 x o = body2 x o) ->
  forall o, forRange xs body1 o = forRange xs body2 o.
Proof.
  intros Hbody. induction xs as [|x xs IH]; intros o; simpl; [reflexivity|].
  apply dbind_ext; [apply Hbody|]. intros _ o'. apply IH.
Qed.

Section SameAnswers.
Context (E1 E2 : Env).
Hypothesis same : sameAnswers E1 E2.

Lemma hasGoFiles_ext (path : string) :
  hasGoFiles E1 path = hasGoFiles E2 path.
Proof.
  destruct same as (_ & Hrd & _). unfold hasGoFiles. by rewrite Hrd.
Qed.

Lemma detectSourceDirs_ext (rootPath : string) (o : Options) :
  detectSourceDirs E1 rootPath o = detectSourceDirs E2 rootPath o.
Proof.
  destruct same as (_ & _ & Hde & _). unfold detectSourceDirs.
  apply forRange_ext. intros srcDir o'.
  apply dbind_ext; [unfold call; by rewrite Hde|reflexivity].
Qed.

Lemma detectFallbackDirs_ext (rootPath : string) (o : Options) :
  detectFallbackDirs E1 rootPath o = detectFallbackDirs E2 rootPath o.
Proof.
  destruct same as (_ & Hrd & _ & Hfj & _). unfold detectFallbackDirs.
  apply dbind_ext; [reflexivity|]. intros n o'.
  destruct (Nat.eqb n 0); simpl; [|reflexivity].
  apply dbind_ext; [unfold call; by rewrite Hrd|]. intros topLevel o''.
  apply forRange_ext. intros item o3.
  destruct (negb (IsDir item)); [reflexivity|].
  apply dbind_ext; [|reflexivity].
  unfold call. by rewrite Hfj, hasGoFiles_ext.
Qed.

Lemma detectRootFiles_ext (rootPath : string) (o : Options) :
  detectRootFiles E1 rootPath o = detectRootFiles E2 rootPath o.
Proof.
  destruct same as (_ & Hrd & _). unfold detectRootFiles.
  apply dbind_ext; [unfold call; by rewrite hasGoFiles_ext|]. intros res o'.
  destruct res; simpl; [|reflexivity].
  apply dbind_ext; [unfold call; by rewrite Hrd|reflexivity].
Qed.

Lemma detectVersionPackage_ext (rootPath : string) (o : Options) :
  detectVersionPackage E1 rootPath o = detectVersionPackage E2 rootPath o.
Proof.
  destruct same as (_ & _ & Hde & _ & Hpj & _). unfold detectVersionPackage.
  apply forRange_ext. intros candidate o'.
  apply dbind_ext; [unfold call; by rewrite Hde|]. intros exists_ o''.
  destruct exists_; simpl; [|reflexivity].
  apply dbind_ext; [reflexivity|]. intros canonical o3. by rewrite Hpj.
Qed.

Lemma detectCommands_ext (rootPath : string) (o : Options) :
  detectCommands E1 rootPath o = detectCommands E2 rootPath o.
Proof.
  destruct same as (_ & Hrd & Hde & Hfj & _). unfold detectCommands.
  apply dbind_ext; [unfold call; by rewrite Hde|]. intros cmdExists o'.
  destruct cmdExists; simpl; [|reflexivity].
  apply dbind_ext; [unfold call; by rewrite Hfj, Hrd|reflexivity].
Qed.

Lemma detectOpened_ext (gomod : File) (rootPath : string) (o : Options) :
  detectOpened E1 gomod rootPath o = detectOpened E2 gomod rootPath o.
Proof.
  unfold detectOpened.
  apply dbind_ext; [reflexivity|]. intros contents o1.
  apply dbind_ext.
  { destruct same as (_ & _ & _ & _ & _ & Hmp). by rewrite Hmp. }
  intros _ o2. apply dbind_ext; [apply detectSourceDirs_ext|].
  intros _ o3. apply dbind_ext; [apply detectFallbackDirs_ext|].
  intros _ o4. apply dbind_ext; [apply detectRootFiles_ext|].
  intros _ o5. apply dbind_ext; [reflexivity|].
  intros _ o6. apply dbind_ext; [apply detectVersionPackage_ext|].
  intros _ o7. apply detectCommands_ext.
Qed.


End SameAnswers.

Lemma findEntry_app (t extra : Tree) (p : string) :
  findEntry (t ++ extra) p =
  match findEntry t p with
  | Some e => Some e
  | None => findEntry extra p
  end.
Proof.
  induction t as [|[q e] t IH]; simpl; [reflexivity|].
  by destruct (String.eqb q p).
Qed.

Lemma appTreeAgain_findEntry (p : string) :
  findEntry appTreeAgain p = findEntry appTree p.
Proof.
  unfold appTreeAgain. rewrite findEntry_app.
  destruct (findEntry appTree p) as [e|] eqn:Hp; [reflexivity|].
  cbn [findEntry].
  destruct (String.eqb "/app/go.mod" p) eqn:H1.
  { apply String.eqb_eq in H1. subst p. vm_compute in Hp. discriminate. }
  destruct (String.eqb "/app/pkg" p) eqn:H2; [|reflexivity].
  apply String.eqb_eq in H2. subst p. vm_compute in Hp. discriminate.
Qed.

Lemma appTreeAgain_sameAnswers :
  sameAnswers (treeEnv appTree) (treeEnv appTreeAgain).
Proof.
  repeat split; intros; unfold treeEnv;
    cbn [os_Open ioutil_ReadDir directoryExists filepath_Join path_Join
         modfile_ModulePath];
    by rewrite ?appTreeAgain_findEntry.
Qed.

